(** * The supervisor of selfdrive/manager/manager.py

    A shallow embedding of [manager_init], [manager_prepare],
    [manager_cleanup], [manager_thread], [main] and the block that runs
    [main], and the properties of the supervisor lifecycle proved about
    them.  Start-up is given twice: as it goes when its collaborators
    return, and, in [Startup], with collaborators that may fail.

    The supervisor talks to a parameter store, to the process environment
    and to a number of collaborators (process handles, the orchestration
    policy, the publisher, the hardware abstraction).  The store and the
    environment are finite maps; every call to a collaborator is recorded
    in a trace, so that the order of calls can be stated. *)

From stdpp Require Import gmap strings list.
From Stdlib Require Import ZArith Ascii String Lia.

Local Open Scope string_scope.
Local Open Scope list_scope.

(** ** Python values the supervisor handles *)

Module Py.

(** [str.split(sep)] for a one-character separator: the pieces between
    the separators, the empty ones included; [''.split(',')] is ['']. *)
Fixpoint split (sep : ascii) (s : string) : list string :=
  match s with
  | EmptyString => [EmptyString]
  | String c s' =>
      if Ascii.eqb c sep then EmptyString :: split sep s'
      else match split sep s' with
           | [] => [String c EmptyString]
           | x :: xs => String c x :: xs
           end
  end.

(** The blanks [int()] skips around an ASCII literal: tab, line feed,
    vertical tab, form feed, carriage return and space. *)
Definition isspace (c : ascii) : bool :=
  let n := nat_of_ascii c in
  (((9 <=? n) && (n <=? 13)) || (n =? 32))%nat.

Fixpoint lstrip (s : string) : string :=
  match s with
  | EmptyString => EmptyString
  | String c s' => if isspace c then lstrip s' else s
  end.

Definition strip (s : string) : string :=
  String.rev (lstrip (String.rev (lstrip s))).

Definition digit (c : ascii) : option Z :=
  let n := nat_of_ascii c in
  if ((48 <=? n) && (n <=? 57))%nat then Some (Z.of_nat n - 48)%Z else None.

(** The digits of a decimal literal: a digit first, single underscores
    only between digits. *)
Fixpoint digits (s : string) (acc : Z) (after_digit : bool) : option Z :=
  match s with
  | EmptyString => if after_digit then Some acc else None
  | String c s' =>
      match digit c with
      | Some d => digits s' (10 * acc + d)%Z true
      | None =>
          if Ascii.eqb c "_"%char && after_digit then digits s' acc false
          else None
      end
  end.

(** [int(s)] in base ten for a text of ASCII characters (and, where
    the interpreter limits the length of a literal, of no more digits
    than it takes): blanks around, a sign, digits with single
    underscores between them.  [None] stands for the [ValueError] of a
    text that is not such a literal.  A text with other characters is
    outside of what this function describes: [int()] is a parameter of
    the supervisor ([int] of [Host]), and this is the value it takes
    on the devices of the examples. *)
Definition int (s : string) : option Z :=
  match strip s with
  | String "+"%char s' => digits s' 0%Z false
  | String "-"%char s' => Z.opp <$> digits s' 0%Z false
  | s' => digits s' 0%Z false
  end.

(** [bool(n)] of an integer. *)
Definition bool_of_int (n : Z) : bool := negb (n =? 0)%Z.

Fixpoint contains (c : ascii) (s : string) : bool :=
  match s with
  | EmptyString => false
  | String a s' => Ascii.eqb a c || contains c s'
  end.

Definition hexdigit (n : nat) : ascii :=
  ascii_of_nat (if (n <? 10)%nat then 48 + n else 87 + n).

Definition backslash : ascii := "092"%char.
Definition single_quote : ascii := "039"%char.
Definition double_quote : ascii := "034"%char.

(** One byte of the [repr] of a bytes object whose quote is [quote]. *)
Definition repr_byte (quote c : ascii) : string :=
  let n := nat_of_ascii c in
  if Ascii.eqb c quote || Ascii.eqb c backslash
  then String backslash (String c EmptyString)
  else if (n =? 9)%nat then String backslash "t"
  else if (n =? 10)%nat then String backslash "n"
  else if (n =? 13)%nat then String backslash "r"
  else if ((n <? 32) || (127 <=? n))%nat
  then String backslash
         (String "x" (String (hexdigit (n / 16))
                        (String (hexdigit (n mod 16)) EmptyString)))
  else String c EmptyString.

Fixpoint repr_body (quote : ascii) (b : string) : string :=
  match b with
  | EmptyString => EmptyString
  | String c b' => repr_byte quote c ++ repr_body quote b'
  end.

(** [repr(b)] of a bytes object: single quotes, unless the value holds
    a single quote and no double quote; the quote in use and the
    backslash are escaped, tab, line feed and carriage return are
    written with their letters, and every other byte that is not
    printable ASCII as a hexadecimal escape. *)
Definition repr_bytes (b : string) : string :=
  let quote :=
    if contains single_quote b && negb (contains double_quote b)
    then double_quote else single_quote in
  "b" ++ String quote (repr_body quote b) ++ String quote EmptyString.

(** [str(x)] of an optional bytes object, as an f-string formats it:
    [None], or the [repr] of the bytes. *)
Definition format (x : option string) : string :=
  match x with
  | None => "None"
  | Some b => repr_bytes b
  end.

(** Truth value of an optional text: [None] and [''] are false. *)
Definition truthy (x : option string) : bool :=
  match x with
  | Some (String _ _) => true
  | _ => false
  end.

(** [sep.join(l)]. *)
Fixpoint join (sep : string) (l : list string) : string :=
  match l with
  | [] => EmptyString
  | [x] => x
  | x :: xs => x ++ sep ++ join sep xs
  end.

End Py.

(** ** Exceptions, events and the world *)

(** The exceptions that matter to the supervisor.  [SystemExit] is what the
    SIGTERM handler installed by [main] raises; it is the only one here
    that [except Exception] does not catch. *)
Inductive exn : Type :=
| Exception (msg : string)
| ValueError (literal : string)
| KeyError (key : string)
| SystemExit (code : Z)
| CollabError (what : string).

Definition is_Exception (e : exn) : bool :=
  match e with
  | SystemExit _ => false
  | _ => true
  end.

Inductive level : Type := LDebug | LInfo | LWarning.

(** The three system actions of the hardware abstraction. *)
Inductive action : Type := Uninstall | Reboot | Shutdown.

(** One entry of the managerState message. *)
Record ProcessState : Type := {
  ps_name : string;
  ps_running : bool;
  ps_should_be_running : bool;
  ps_pid : Z;
  ps_exit_code : Z
}.

(** What the operating system knows of a started process. *)
Record Proc : Type := {
  proc_alive : bool;
  proc_shutting_down : bool;
  proc_pid : Z;
  proc_exitcode : Z
}.

(** Calls to collaborators, in the order the supervisor makes them. *)
Inductive event : Type :=
| EvSetTime
| EvBootlog
| EvMkdirShm
| EvPrint (text : string)
| EvRegister
| EvSentryInit
| EvBindGlobal (dongle_id version : string) (dirty : bool) (device : string)
| EvRemoveErrorTxt
| EvBind (daemon : string)
| EvLog (l : level) (msg : string)
| EvLogEnviron (env : gmap string string)
| EvPrepare (name : string)
| EvStart (name : string)
| EvStop (name : string) (block : bool)
| EvSignal
| EvSubMaster
| EvPubMaster
| EvUpdate
| EvEnsureRunning (started : bool) (not_run : list string)
| EvSend (processes : list ProcessState)
| EvPrintExc
| EvCaptureException
| EvHardware (a : action).

Record World : Type := {
  params : gmap string string;
  environ : gmap string string;
  trace : list event
}.

(** The world at the start of a run: nothing has been called yet. *)
Definition boot (p e : gmap string string) : World :=
  {| params := p; environ := e; trace := [] |}.

Inductive mkdir_result : Type := Created | FileExists | PermissionDenied.

(** What is fixed for a run: the build, the device, the key types of the
    parameter store, the registry of managed processes (the names, in the
    order of [managed_processes.values()]), what the collaborators of
    [manager_init] answer, and what the interpreter's [int()] makes of
    a text ([None]: it raises ValueError). *)
Record Host : Type := {
  int : string -> option Z;
  PC : bool;
  utcnow_isoformat : string;
  clear_on_manager_start : string -> bool;
  mkdir_shm : mkdir_result;
  get_version : string;
  terms_version : string;
  training_version : string;
  get_commit : string;
  get_short_branch : string;
  get_origin : string;
  is_tested_branch : bool;
  is_dirty : bool;
  register : option string;
  get_device_type : string;
  error_txt_isfile : bool;
  UNREGISTERED_DONGLE_ID : string;
  managed_processes : list string
}.

(** What the rest of the system does while the supervisor runs, as a
    function of the calls made so far: whether the call just made raises,
    what other processes wrote to the store meanwhile, the device-started
    flag of the last update, and the state of each process handle
    ([None]: the handle has no process). *)
Record Outside : Type := {
  raises : list event -> option exn;
  writes : list event -> gmap string string -> gmap string string;
  started : list event -> bool;
  proc : list event -> string -> option Proc
}.

(** ** The monad of supervisor code *)

(** [Pending]: the control loop was still running when the observation
    ended. *)
Inductive result (A : Type) : Type :=
| Ok (a : A)
| Raise (e : exn)
| Pending.
Arguments Ok {A} a.
Arguments Raise {A} e.
Arguments Pending {A}.

Definition M (A : Type) : Type := World -> result A * World.

Definition ret {A} (a : A) : M A := fun w => (Ok a, w).

Definition bind {A B} (m : M A) (k : A -> M B) : M B :=
  fun w =>
    match m w with
    | (Ok a, w') => k a w'
    | (Raise e, w') => (Raise e, w')
    | (Pending, w') => (Pending, w')
    end.

Definition raise {A} (e : exn) : M A := fun w => (Raise e, w).

Notation "'do' x <- m ; k" := (bind m (fun x => k))
  (at level 10, x name, m at level 100, k at level 200,
   format "'[v' 'do'  x  <-  m ; '/' k ']'").
Notation "m ;; k" := (bind m (fun _ => k))
  (at level 100, k at level 200, right associativity,
   format "'[v' m ;; '/' k ']'").

Fixpoint for_each {A} (l : list A) (body : A -> M unit) : M unit :=
  match l with
  | [] => ret tt
  | x :: xs => body x ;; for_each xs body
  end.

(** [except Exception: handler], entered with the outcome of the body. *)
Definition except_Exception (handler : M unit) (r : result unit) : M unit :=
  fun w =>
    match r with
    | Raise e => if is_Exception e then handler w else (r, w)
    | _ => (r, w)
    end.

(** [finally: final], entered with the outcome of what precedes: the
    outcome stands unless [final] raises itself. *)
Definition finally (final : M unit) (r : result unit) : M unit :=
  fun w =>
    match r with
    | Pending => (Pending, w)
    | _ =>
        match final w with
        | (Ok _, w') => (r, w')
        | (Raise e, w') => (Raise e, w')
        | (Pending, w') => (Pending, w')
        end
    end.

(** [try: body / except Exception: handler / finally: final]. *)
Definition try_except_finally (body handler final : M unit) : M unit :=
  fun w =>
    let '(r1, w1) := body w in
    let '(r2, w2) := except_Exception handler r1 w1 in
    finally final r2 w2.

Definition log_event (ev : event) (w : World) : World :=
  {| params := params w; environ := environ w; trace := trace w ++ [ev] |}.

(** A call that returns: logging, and the collaborators of start-up. *)
Definition tell (ev : event) : M unit := fun w => (Ok tt, log_event ev w).

(** ** The parameter store and the environment *)

(** Modelled from the spec: [common.params.Params] is not part of the
    sources; the spec gives it typed get/put of text and booleans keyed by
    name and a bulk clear of the keys tagged "clear on start".  A boolean
    is stored as the text 1 or 0. *)
Module Params.

Definition get (k : string) : M (option string) :=
  fun w => (Ok (params w !! k), w).

Definition put (k v : string) : M unit :=
  fun w => (Ok tt, {| params := <[k := v]> (params w);
                      environ := environ w; trace := trace w |}).

Definition bool_value (p : gmap string string) (k : string) : bool :=
  bool_decide (p !! k = Some "1").

Definition get_bool (k : string) : M bool :=
  fun w => (Ok (bool_value (params w) k), w).

Definition put_bool (k : string) (b : bool) : M unit :=
  put k (if b then "1" else "0").

Definition cleared (tagged : string -> bool) (p : gmap string string)
  : gmap string string :=
  filter (fun kv => tagged kv.1 = false) p.

Definition clear_all (tagged : string -> bool) : M unit :=
  fun w => (Ok tt, {| params := cleared tagged (params w);
                      environ := environ w; trace := trace w |}).

End Params.

Definition getenv (k : string) : M (option string) :=
  fun w => (Ok (environ w !! k), w).

Definition setenv (k v : string) : M unit :=
  fun w => (Ok tt, {| params := params w; environ := <[k := v]> (environ w);
                      trace := trace w |}).

(** ** The supervisor *)

Section Supervisor.

Context (host : Host) (out : Outside).

(** A call that takes time and may fail: it is logged, other processes
    may have written to the store by the time it ends, and it raises
    when the outside says so. *)
Definition call (ev : event) : M unit :=
  fun w =>
    let t := trace w ++ [ev] in
    let w' := {| params := writes out t (params w);
                 environ := environ w; trace := t |} in
    match raises out t with
    | Some e => (Raise e, w')
    | None => (Ok tt, w')
    end.

(** *** manager_init *)

Definition default_params : list (string * string) :=
  [ ("AccMadsCombo", "1");
    ("AutoLaneChangeTimer", "0");
    ("BelowSpeedPause", "0");
    ("BrakeLights", "0");
    ("BrightnessControl", "0");
    ("CustomTorqueLateral", "0");
    ("CameraControl", "2");
    ("CameraControlToggle", "0");
    ("CameraOffset", "0");
    ("CarModel", "");
    ("CarModelText", "");
    ("ChevronInfo", "1");
    ("CustomBootScreen", "0");
    ("CustomOffsets", "0");
    ("CompletedTrainingVersion", "0");
    ("DevUI", "1");
    ("DevUIRow", "1");
    ("DisableOnroadUploads", "0");
    ("DisengageLateralOnBrake", "1");
    ("DisengageOnAccelerator", "0");
    ("DynamicLaneProfile", "2");
    ("DynamicLaneProfileToggle", "1");
    ("EnableMads", "1");
    ("EndToEndLongToggle", "1");
    ("EnhancedScc", "0");
    ("GapAdjustCruise", "1");
    ("GapAdjustCruiseMode", "0");
    ("GapAdjustCruiseTr", "4");
    ("GpxDeleteAfterUpload", "1");
    ("GpxDeleteIfUploaded", "1");
    ("GsmMetered", "1");
    ("HandsOnWheelMonitoring", "0");
    ("HasAcceptedTerms", "0");
    ("LanguageSetting", "main_en");
    ("LastSpeedLimitSignTap", "0");
    ("MadsIconToggle", "1");
    ("MaxTimeOffroad", "9");
    ("OnroadScreenOff", "0");
    ("OnroadScreenOffBrightness", "50");
    ("OpenpilotEnabledToggle", "1");
    ("PathOffset", "0");
    ("ReverseAccChange", "0");
    ("ShowDebugUI", "1");
    ("SpeedLimitControl", "1");
    ("SpeedLimitPercOffset", "1");
    ("SpeedLimitStyle", "0");
    ("SpeedLimitValueOffset", "0");
    ("StandStillTimer", "0");
    ("StockLongToyota", "0");
    ("TorqueDeadzoneDeg", "0");
    ("TorqueFriction", "1");
    ("TorqueMaxLatAccel", "250");
    ("TurnSpeedControl", "0");
    ("TurnVisionControl", "0");
    ("VisionCurveLaneless", "0");
    ("VwAccType", "0")
  ] ++ (if PC host then []
        else [("LastUpdateTime", utcnow_isoformat host)]).

(** [os.mkdir("/dev/shm")] under its two handlers; an [OSError] that
    neither catches is a call that fails, in [Startup.make_shm]. *)
Definition make_shm : M unit :=
  tell EvMkdirShm ;;
  match mkdir_shm host with
  | Created => ret tt
  | FileExists => ret tt
  | PermissionDenied => tell (EvPrint "WARNING: failed to make /dev/shm")
  end.

(** Lines 30-151, for a start-up whose collaborators all return;
    [Startup.manager_init], further down, is start-up with calls that
    fail. *)
Definition manager_init : M unit :=
  tell EvSetTime ;;
  tell EvBootlog ;;
  Params.clear_all (clear_on_manager_start host) ;;
  do lock <- Params.get_bool "RecordFrontLock" ;
  (if lock then Params.put_bool "RecordFront" true else ret tt) ;;
  for_each default_params (fun kv =>
    do cur <- Params.get kv.1 ;
    match cur with
    | None => Params.put kv.1 kv.2
    | Some _ => ret tt
    end) ;;
  do passive <- getenv "PASSIVE" ;
  match passive with
  | Some text =>
      match int host text with
      | Some n => Params.put_bool "Passive" (Py.bool_of_int n)
      | None => raise (ValueError text)
      end
  | None => ret tt
  end ;;
  do mode <- Params.get "Passive" ;
  match mode with
  | None => raise (Exception "Passive must be set to continue")
  | Some _ => ret tt
  end ;;
  make_shm ;;
  Params.put "Version" (get_version host) ;;
  Params.put "TermsVersion" (terms_version host) ;;
  Params.put "TrainingVersion" (training_version host) ;;
  Params.put "GitCommit" (get_commit host) ;;
  Params.put "GitBranch" (get_short_branch host) ;;
  Params.put "GitRemote" (get_origin host) ;;
  Params.put_bool "IsTestedBranch" (is_tested_branch host) ;;
  tell EvRegister ;;
  do dongle_id <-
    (if Py.truthy (register host)
     then ret (default "" (register host))
     else do serial <- Params.get "HardwareSerial" ;
          raise (Exception
                   ("Registration failed for device " ++ Py.format serial))) ;
  setenv "DONGLE_ID" dongle_id ;;
  (if is_dirty host then ret tt else setenv "CLEAN" "1") ;;
  tell EvSentryInit ;;
  tell (EvBindGlobal dongle_id (get_version host) (is_dirty host)
          (get_device_type host)) ;;
  (if error_txt_isfile host then tell EvRemoveErrorTxt else ret tt).

(** *** manager_prepare and manager_cleanup *)

Definition manager_prepare : M unit :=
  for_each (managed_processes host) (fun p => call (EvPrepare p)).

Definition manager_cleanup : M unit :=
  for_each (managed_processes host) (fun p => call (EvStop p false)) ;;
  for_each (managed_processes host) (fun p => call (EvStop p true)) ;;
  tell (EvLog LInfo "everything is dead").

(** *** manager_thread *)

(** Lines 178-183: the names handed to the orchestration policy as
    [not_run]. *)
Definition compute_ignore (dongle_id noboard : option string)
    (block : string) : list string :=
  let ignore := [] in
  let ignore :=
    if bool_decide (dongle_id = None
                    \/ dongle_id = Some (UNREGISTERED_DONGLE_ID host))
    then ignore ++ ["manage_athenad"; "uploader"] else ignore in
  let ignore :=
    match noboard with
    | Some _ => ignore ++ ["pandad"]
    | None => ignore
    end in
  ignore ++ List.filter (fun x => (0 <? String.length x)%nat)
                        (Py.split "," block).

(** The exclusion list of a world: what [manager_thread] computes when
    it is entered there. *)
Definition exclusion (w : World) : list string :=
  compute_ignore (params w !! "DongleId") (environ w !! "NOBOARD")
                 (default "" (environ w !! "BLOCK")).

Definition esc : string := String "027"%char "".

(** Line 196: the coloured names of the handles that have a process. *)
Definition running_line (t : list event) : string :=
  Py.join " "
    (omap (fun p =>
             match proc out t p with
             | Some pr =>
                 Some ((if proc_alive pr then esc ++ "[32m"
                        else esc ++ "[31m") ++ p ++ esc ++ "[0m")%string
             | None => None
             end)
          (managed_processes host)).

(** Modelled from the spec: [ManagedProcess.get_process_state_msg] is
    not part of the sources; the spec's describeState() gives the
    status entry of one process, named after it. *)
Definition get_process_state_msg (t : list event) (p : string)
  : ProcessState :=
  match proc out t p with
  | Some pr =>
      {| ps_name := p; ps_running := proc_alive pr;
         ps_should_be_running := negb (proc_shutting_down pr);
         ps_pid := proc_pid pr; ps_exit_code := proc_exitcode pr |}
  | None =>
      {| ps_name := p; ps_running := false;
         ps_should_be_running := false; ps_pid := 0; ps_exit_code := 0 |}
  end.

Definition history : M (list event) := fun w => (Ok (trace w), w).

Definition shutdown_params : list string :=
  ["DoUninstall"; "DoShutdown"; "DoReboot"].

(** Lines 207-212: the loop over the three flags, [shutdown] being the
    variable it sets. *)
Fixpoint check_flags (l : list string) (shutdown : bool) : M bool :=
  match l with
  | [] => ret shutdown
  | param :: rest =>
      do set <- Params.get_bool param ;
      if set
      then Params.put "LastManagerExitReason" param ;;
           tell (EvLog LWarning
                   ("Shutting down manager - " ++ param ++ " set")) ;;
           check_flags rest true
      else check_flags rest shutdown
  end.

(** Lines 191-212: one turn of the loop; the result is [shutdown]. *)
Definition iteration (ignore : list string) : M bool :=
  call EvUpdate ;;
  do t <- history ;
  let started := started out t in
  call (EvEnsureRunning started ignore) ;;
  do t <- history ;
  let running := running_line t in
  tell (EvPrint running) ;;
  tell (EvLog LDebug running) ;;
  do t <- history ;
  call (EvSend (map (get_process_state_msg t) (managed_processes host))) ;;
  check_flags shutdown_params false.

(** Lines 190-215: [while True], observed for [fuel] turns. *)
Fixpoint control_loop (ignore : list string) (fuel : nat) : M unit :=
  match fuel with
  | O => fun w => (Pending, w)
  | S fuel' =>
      do shutdown <- iteration ignore ;
      if shutdown then ret tt else control_loop ignore fuel'
  end.

Definition manager_thread (fuel : nat) : M unit :=
  tell (EvBind "manager") ;;
  tell (EvLog LInfo "manager start") ;;
  do env <- (fun w => (Ok (environ w), w)) ;
  tell (EvLogEnviron env) ;;
  do dongle_id <- Params.get "DongleId" ;
  do noboard <- getenv "NOBOARD" ;
  do block <- getenv "BLOCK" ;
  let ignore := compute_ignore dongle_id noboard (default "" block) in
  call EvSubMaster ;;
  call EvPubMaster ;;
  call (EvEnsureRunning false ignore) ;;
  control_loop ignore fuel.

(** *** main *)

(** [managed_processes['ui'].start()]. *)
Definition start_ui : M unit :=
  if bool_decide ("ui" ∈ managed_processes host)
  then call (EvStart "ui")
  else raise (KeyError "ui").

(** Lines 235-241: the loop under its handlers. *)
Definition supervise (fuel : nat) : M unit :=
  try_except_finally (manager_thread fuel)
                     (call EvPrintExc ;; call EvCaptureException)
                     manager_cleanup.

(** Lines 243-252: the system action. *)
Definition system_action : M unit :=
  do uninstall <- Params.get_bool "DoUninstall" ;
  if uninstall
  then tell (EvLog LWarning "uninstalling") ;; call (EvHardware Uninstall)
  else
    do reboot <- Params.get_bool "DoReboot" ;
    if reboot
    then tell (EvLog LWarning "reboot") ;; call (EvHardware Reboot)
    else
      do shutdown <- Params.get_bool "DoShutdown" ;
      if shutdown
      then tell (EvLog LWarning "shutdown") ;; call (EvHardware Shutdown)
      else ret tt.

Definition main (fuel : nat) : M unit :=
  do flag <- getenv "PREPAREONLY" ;
  let prepare_only := match flag with Some _ => true | None => false end in
  manager_init ;;
  (if prepare_only then ret tt else start_ui) ;;
  manager_prepare ;;
  if prepare_only then ret tt
  else
    tell EvSignal ;;
    supervise fuel ;;
    system_action.

End Supervisor.

(** * Properties *)

(** ** Reading traces *)

Definition is_hardware (ev : event) : bool :=
  match ev with EvHardware _ => true | _ => false end.

Definition is_update (ev : event) : bool :=
  match ev with EvUpdate => true | _ => false end.

Definition is_send (ev : event) : bool :=
  match ev with EvSend _ => true | _ => false end.

(** The events of start-up: no process handle, no loop. *)
Definition is_startup (ev : event) : bool :=
  match ev with
  | EvSetTime | EvBootlog | EvMkdirShm | EvPrint _ | EvRegister
  | EvSentryInit | EvBindGlobal _ _ _ _ | EvRemoveErrorTxt => true
  | _ => false
  end.

(** The system actions called in a trace, in order. *)
Definition hardware_calls (t : list event) : list action :=
  omap (fun ev => match ev with EvHardware a => Some a | _ => None end) t.

Definition count (f : event -> bool) (t : list event) : nat :=
  List.length (List.filter f t).

Lemma count_app f t1 t2 : count f (t1 ++ t2) = count f t1 + count f t2.
Proof. unfold count. by rewrite List.filter_app, length_app. Qed.

Lemma count_none f t : Forall (fun ev => f ev = false) t -> count f t = 0.
Proof.
  unfold count. induction 1 as [|ev t Hev _ IH]; simpl; [done|].
  by rewrite Hev.
Qed.

Lemma hardware_calls_app t1 t2 :
  hardware_calls (t1 ++ t2) = hardware_calls t1 ++ hardware_calls t2.
Proof. apply omap_app. Qed.

Lemma hardware_calls_none t :
  Forall (fun ev => is_hardware ev = false) t -> hardware_calls t = [].
Proof.
  unfold hardware_calls. induction 1 as [|ev t Hev _ IH]; simpl; [done|].
  destruct ev; simpl in *; try done.
Qed.

Lemma hardware_calls_elem a t :
  EvHardware a ∈ t -> a ∈ hardware_calls t.
Proof.
  intros H. unfold hardware_calls. apply list_elem_of_omap.
  by exists (EvHardware a).
Qed.

(** ** What a computation adds to the trace *)

(** [emits Q m]: whatever the world, running [m] appends to the trace,
    and only events that satisfy [Q]. *)
Definition emits {A} (Q : event -> Prop) (m : M A) : Prop :=
  forall w, exists t, trace (m w).2 = trace w ++ t /\ Forall Q t.

Lemma emits_run {A} Q (m : M A) w r w' :
  emits Q m -> m w = (r, w') ->
  exists t, trace w' = trace w ++ t /\ Forall Q t.
Proof. intros H E. specialize (H w). by rewrite E in H. Qed.

Lemma emits_weaken {A} (Q Q' : event -> Prop) (m : M A) :
  (forall ev, Q ev -> Q' ev) -> emits Q m -> emits Q' m.
Proof.
  intros HQ H w. destruct (H w) as (t & E & F).
  exists t. split; [done|]. eapply Forall_impl; eauto.
Qed.

Lemma emits_silent {A} Q (m : M A) :
  (forall w, trace (m w).2 = trace w) -> emits Q m.
Proof. intros H w. exists []. by rewrite H, app_nil_r. Qed.

Lemma emits_ret {A} Q (a : A) : emits Q (ret a).
Proof. by apply emits_silent. Qed.

Lemma emits_raise {A} Q e : emits Q (@raise A e).
Proof. by apply emits_silent. Qed.

Lemma emits_bind {A B} Q (m : M A) (k : A -> M B) :
  emits Q m -> (forall a, emits Q (k a)) -> emits Q (bind m k).
Proof.
  intros Hm Hk w. unfold bind.
  destruct (Hm w) as (t1 & E1 & F1).
  destruct (m w) as [[a|e|] w1]; simpl in *; [|by exists t1..].
  destruct (Hk a w1) as (t2 & E2 & F2).
  exists (t1 ++ t2). rewrite E2, E1, app_assoc.
  split; [done|by apply Forall_app].
Qed.

Lemma bind_run {A B} (m : M A) (k : A -> M B) w r w1 :
  m w = (r, w1) ->
  bind m k w = match r with
               | Ok a => k a w1
               | Raise e => (Raise e, w1)
               | Pending => (Pending, w1)
               end.
Proof. intros E. unfold bind. rewrite E. by destruct r. Qed.

Lemma bind_assoc {A B C} (m : M A) (k : A -> M B) (f : B -> M C) w :
  bind (bind m k) f w = bind m (fun x => bind (k x) f) w.
Proof. unfold bind. by destruct (m w) as [[a|e|] w1]. Qed.

Lemma emits_tell Q ev : Q ev -> emits Q (tell ev).
Proof. intros H w. exists [ev]. split; [done|by constructor]. Qed.

Lemma emits_for_each {A} Q (l : list A) body :
  (forall x, emits Q (body x)) -> emits Q (for_each l body).
Proof.
  intros H. induction l as [|x l IH]; simpl.
  - apply emits_ret.
  - apply emits_bind; [apply H|done].
Qed.

Lemma finally_world final r w :
  r <> Pending -> (finally final r w).2 = (final w).2.
Proof.
  intros Hr. unfold finally.
  destruct r as [a|e|]; [| |done]; by destruct (final w) as [[?|?|] ?].
Qed.

Lemma finally_returns final r w :
  (finally final r w).1 = Ok tt -> r = Ok tt /\ (final w).1 = Ok tt.
Proof.
  unfold finally.
  destruct r as [[]|e|]; [| |done];
    by destruct (final w) as [[[]|?|] ?].
Qed.

Lemma emits_try_except_finally Q body handler final :
  emits Q body -> emits Q handler -> emits Q final ->
  emits Q (try_except_finally body handler final).
Proof.
  intros Hb Hh Hf w. unfold try_except_finally.
  destruct (Hb w) as (t1 & E1 & F1).
  destruct (body w) as [r1 w1]; simpl in E1.
  assert (exists t2, trace (except_Exception handler r1 w1).2 = trace w ++ t2
                     /\ Forall Q t2) as (t2 & E2 & F2).
  { unfold except_Exception.
    destruct r1 as [a|e|]; simpl; [by exists t1| |by exists t1].
    destruct (is_Exception e); [|by exists t1].
    destruct (Hh w1) as (t & E & F). exists (t1 ++ t).
    rewrite E, E1, app_assoc. split; [done|by apply Forall_app]. }
  destruct (except_Exception handler r1 w1) as [r2 w2]; simpl in E2.
  assert (r2 = Pending \/ r2 <> Pending) as [->|Hr2]
    by (destruct r2; auto); [by exists t2|].
  rewrite finally_world by done.
  destruct (Hf w2) as (t3 & E3 & F3). exists (t2 ++ t3).
  rewrite E3, E2, app_assoc. split; [done|by apply Forall_app].
Qed.

Lemma emits_params_get Q k : emits Q (Params.get k).
Proof. by apply emits_silent. Qed.
Lemma emits_params_put Q k v : emits Q (Params.put k v).
Proof. by apply emits_silent. Qed.
Lemma emits_params_get_bool Q k : emits Q (Params.get_bool k).
Proof. by apply emits_silent. Qed.
Lemma emits_params_put_bool Q k b : emits Q (Params.put_bool k b).
Proof. by apply emits_silent. Qed.
Lemma emits_params_clear_all Q f : emits Q (Params.clear_all f).
Proof. by apply emits_silent. Qed.
Lemma emits_getenv Q k : emits Q (getenv k).
Proof. by apply emits_silent. Qed.
Lemma emits_setenv Q k v : emits Q (setenv k v).
Proof. by apply emits_silent. Qed.

Create HintDb emits discriminated.
#[export] Hint Resolve emits_ret emits_raise emits_params_get
  emits_params_put emits_params_get_bool emits_params_put_bool
  emits_params_clear_all emits_getenv emits_setenv : emits.

(** ** Calls to the process handles *)

Section Lifecycle.

Context (host : Host) (out : Outside).

Lemma emits_call Q ev : Q ev -> emits Q (call out ev).
Proof.
  intros H w. exists [ev]. unfold call.
  destruct (raises out (trace w ++ [ev])); (split; [done|by constructor]).
Qed.

(** The world when a call ends. *)
Definition called (ev : event) (w : World) : World :=
  {| params := writes out (trace w ++ [ev]) (params w);
     environ := environ w; trace := trace w ++ [ev] |}.

Lemma bind_call {B} ev (k : unit -> M B) w :
  bind (call out ev) k w =
  match raises out (trace w ++ [ev]) with
  | Some e => (Raise e, called ev w)
  | None => k tt (called ev w)
  end.
Proof.
  unfold bind, call. by destruct (raises out (trace w ++ [ev])).
Qed.

(** A loop of calls goes down the list until a call raises: it makes
    the first [n] calls, all of them when it returns, and stops at the
    call that raised. *)
Lemma for_each_call {A} (f : A -> event) (l : list A) (w : World) :
  exists n,
    n <= List.length l /\
    trace (for_each l (fun x => call out (f x)) w).2
      = trace w ++ (f <$> take n l) /\
    match (for_each l (fun x => call out (f x)) w).1 with
    | Ok _ => n = List.length l
    | Raise e =>
        1 <= n /\ raises out (trace w ++ (f <$> take n l)) = Some e
    | Pending => False
    end.
Proof.
  revert w. induction l as [|x l IH]; intros w; simpl.
  - exists 0. by rewrite app_nil_r.
  - rewrite bind_call.
    destruct (raises out (trace w ++ [f x])) as [e|] eqn:Er; simpl.
    + exists 1. simpl. split; [lia|]. split; [done|]. split; [lia|done].
    + destruct (IH (called (f x) w)) as (n & Hn & Et & Hr).
      simpl in Et, Hr. exists (S n). simpl.
      split; [lia|]. split.
      * by rewrite Et, <- app_assoc.
      * destruct (for_each l _ _).1 as [?|e|]; [lia| |done].
        destruct Hr as [? Hr]. split; [lia|].
        by rewrite <- Hr, <- app_assoc.
Qed.

(** The calls of a complete teardown. *)
Definition teardown_calls : list event :=
  ((fun p => EvStop p false) <$> managed_processes host)
  ++ ((fun p => EvStop p true) <$> managed_processes host).

Lemma manager_cleanup_calls (w : World) :
  match (manager_cleanup host out w).1 with
  | Ok _ =>
      trace (manager_cleanup host out w).2
        = trace w ++ teardown_calls ++ [EvLog LInfo "everything is dead"]
  | Raise e =>
      exists n, 1 <= n <= List.length teardown_calls /\
        trace (manager_cleanup host out w).2
          = trace w ++ take n teardown_calls /\
        raises out (trace (manager_cleanup host out w).2) = Some e
  | Pending => False
  end.
Proof.
  unfold manager_cleanup, teardown_calls.
  set (procs := managed_processes host).
  destruct (for_each_call (fun p => EvStop p false) procs w)
    as (n1 & Hn1 & Et1 & Hr1).
  destruct (for_each procs (fun p => call out (EvStop p false)) w)
    as [r1 w1] eqn:E1.
  rewrite (bind_run _ _ _ _ _ E1).
  destruct r1 as [[]|e|]; simpl in *; [| |done].
  - subst n1. rewrite firstn_all in Et1.
    destruct (for_each_call (fun p => EvStop p true) procs w1)
      as (n2 & Hn2 & Et2 & Hr2).
    destruct (for_each procs (fun p => call out (EvStop p true)) w1)
      as [r2 w2] eqn:E2.
    rewrite (bind_run _ _ _ _ _ E2).
    destruct r2 as [[]|e|]; simpl in *; [| |done].
    + subst n2. rewrite firstn_all in Et2.
      by rewrite Et2, Et1, <- !app_assoc.
    + destruct Hr2 as [Hn Hr2].
      exists (List.length procs + n2).
      rewrite length_app, !length_fmap. split; [lia|].
      rewrite take_app_add'; [|by rewrite length_fmap].
      rewrite <- fmap_take.
      rewrite Et2, Et1, <- app_assoc. split; [done|].
      by rewrite app_assoc, <- Et1.
  - destruct Hr1 as [Hn Hr1]. exists n1.
    rewrite length_app, !length_fmap. split; [lia|].
    rewrite take_app_le; [|by rewrite length_fmap].
    rewrite <- fmap_take. split; [done|]. by rewrite Et1.
Qed.

(** ** The shutdown flags *)

(** The flags that are set in a store, in the order the loop reads them. *)
Definition flags_set (p : gmap string string) : list string :=
  List.filter (Params.bool_value p) shutdown_params.

Definition shutting_down_msg (param : string) : event :=
  EvLog LWarning ("Shutting down manager - " ++ param ++ " set").

Lemma bool_value_insert_ne p k v k' :
  k <> k' -> Params.bool_value (<[k := v]> p) k' = Params.bool_value p k'.
Proof. intros H. unfold Params.bool_value. by rewrite lookup_insert_ne. Qed.

Lemma exit_reason_not_a_flag : "LastManagerExitReason" ∉ shutdown_params.
Proof.
  intros H. unfold shutdown_params in H.
  repeat (apply elem_of_cons in H as [H|H]; [discriminate|]).
  by apply elem_of_nil in H.
Qed.

(** The loop over the flags writes every flag that is set, one after the
    other, so the one it leaves in the store is the last. *)
Lemma check_flags_run (l : list string) (b : bool) (w : World) :
  "LastManagerExitReason" ∉ l ->
  check_flags l b w =
    (Ok (match List.filter (Params.bool_value (params w)) l with
         | [] => b
         | _ => true
         end),
     {| params :=
          match last (List.filter (Params.bool_value (params w)) l) with
          | Some x => <["LastManagerExitReason" := x]> (params w)
          | None => params w
          end;
        environ := environ w;
        trace := trace w ++
          (shutting_down_msg <$> List.filter (Params.bool_value (params w)) l)
     |}).
Proof.
  revert b w. induction l as [|param rest IH]; intros b w Hl.
  - simpl. rewrite app_nil_r. by destruct w.
  - apply not_elem_of_cons in Hl as [Hp Hrest].
    cbn [check_flags List.filter]. unfold bind at 1.
    unfold Params.get_bool at 1. cbn beta iota.
    destruct (Params.bool_value (params w) param) eqn:Eb.
    + unfold bind at 1. unfold Params.put at 1. cbn beta iota.
      unfold bind at 1. unfold tell at 1. cbn beta iota.
      rewrite IH by done. unfold log_event. cbn [params environ trace].
      assert (List.filter
                (Params.bool_value (<["LastManagerExitReason" := param]> (params w)))
                rest
              = List.filter (Params.bool_value (params w)) rest) as ->.
      { apply List.filter_ext_in. intros k Hk.
        apply bool_value_insert_ne. intros <-.
        by apply Hrest, list_elem_of_In. }
      rewrite last_cons. f_equal.
      * by destruct (List.filter _ rest).
      * f_equal.
        -- destruct (last _); [by rewrite insert_insert_eq|done].
        -- by rewrite <- app_assoc.
    + by rewrite IH.
Qed.

Lemma flags_set_insert p x :
  flags_set (<["LastManagerExitReason" := x]> p) = flags_set p.
Proof.
  unfold flags_set, shutdown_params. cbn [List.filter].
  by rewrite !bool_value_insert_ne.
Qed.

(** ** One turn of the loop *)

(** The message of one turn: the state of every registered process, as
    the handles have it after the calls [t]. *)
Definition snapshot (t : list event) : list ProcessState :=
  get_process_state_msg out t <$> managed_processes host.

(** The calls of a complete turn that starts after the calls [t]. *)
Definition iteration_calls (ignore : list string) (t : list event)
  : list event :=
  let ensure := EvEnsureRunning (started out (t ++ [EvUpdate])) ignore in
  let running := running_line host out (t ++ [EvUpdate; ensure]) in
  [ EvUpdate; ensure; EvPrint running; EvLog LDebug running;
    EvSend (snapshot (t ++ [EvUpdate; ensure; EvPrint running;
                            EvLog LDebug running])) ].

Lemma bind_history {B} (k : list event -> M B) w :
  bind history k w = k (trace w) w.
Proof. done. Qed.

Lemma bind_tell {B} ev (k : unit -> M B) w :
  bind (tell ev) k w = k tt (log_event ev w).
Proof. done. Qed.

(** A turn either makes its five calls and ends in the check of the
    flags, or is cut short by the call that raised: the update, the
    orchestration or the publication. *)
Lemma iteration_run (ignore : list string) (w : World) :
  (exists wc,
      iteration host out ignore w = check_flags shutdown_params false wc
      /\ trace wc = trace w ++ iteration_calls ignore (trace w)
      /\ environ wc = environ w)
  \/
  (exists e n,
      (iteration host out ignore w).1 = Raise e
      /\ (n = 1 \/ n = 2 \/ n = 5)
      /\ trace (iteration host out ignore w).2
          = trace w ++ take n (iteration_calls ignore (trace w))).
Proof.
  unfold iteration. rewrite bind_call.
  destruct (raises out (trace w ++ [EvUpdate])) as [e|];
    [right; exists e, 1; auto|].
  rewrite bind_history, bind_call. cbn [trace called].
  destruct (raises out _) as [e|].
  { right. exists e, 2. cbn [fst snd trace called].
    rewrite <- ?app_assoc. auto. }
  rewrite bind_history, !bind_tell, bind_history, bind_call.
  cbn [trace called log_event params environ].
  rewrite <- ?app_assoc. cbn [app].
  destruct (raises out _) as [e|].
  { right. exists e, 5. cbn [fst snd trace called log_event].
    rewrite <- ?app_assoc. auto. }
  left. eexists. split; [reflexivity|].
  cbn [trace called environ log_event].
  rewrite <- ?app_assoc. done.
Qed.

(** ** The loop *)

(** The loop returns only from the check of the flags, with [shutdown]
    true. *)
Lemma control_loop_exit ignore fuel w w' :
  control_loop host out ignore fuel w = (Ok tt, w') ->
  exists wc, check_flags shutdown_params false wc = (Ok true, w').
Proof.
  revert w. induction fuel as [|fuel IH]; intros w; [done|].
  cbn [control_loop].
  destruct (iteration_run ignore w) as [(wc & E & _)|(e & n & E & _)].
  - rewrite (check_flags_run shutdown_params false wc) in E by apply exit_reason_not_a_flag.
    rewrite (bind_run _ _ _ _ _ E).
    destruct (List.filter _ shutdown_params) eqn:Ef.
    + apply IH.
    + unfold ret. intros [= <-]. exists wc.
      rewrite check_flags_run by apply exit_reason_not_a_flag. by rewrite Ef.
  - destruct (iteration host out ignore w) as [r w1] eqn:Ei.
    simpl in E. subst r. by rewrite (bind_run _ _ _ _ _ Ei).
Qed.

(** Every publication in the calls [seg], made after the calls [t0],
    carries the snapshot taken at that very point. *)
Definition fresh_sends (t0 seg : list event) : Prop :=
  forall i s, seg !! i = Some (EvSend s) -> s = snapshot (t0 ++ take i seg).

Lemma fresh_sends_app t0 seg1 seg2 :
  fresh_sends t0 seg1 -> fresh_sends (t0 ++ seg1) seg2 ->
  fresh_sends t0 (seg1 ++ seg2).
Proof.
  intros H1 H2 i s Hi.
  destruct (decide (i < List.length seg1)) as [Hlt|Hge].
  - rewrite lookup_app_l in Hi by done.
    rewrite take_app_le by lia. by apply H1.
  - rewrite lookup_app_r in Hi by lia.
    rewrite take_app_ge by lia. rewrite app_assoc. by apply H2.
Qed.

Lemma fresh_sends_quiet t0 seg :
  Forall (fun ev => is_send ev = false) seg -> fresh_sends t0 seg.
Proof.
  intros H i s Hi. rewrite Forall_lookup in H.
  by specialize (H _ _ Hi).
Qed.

Lemma fresh_sends_iteration ignore t n :
  fresh_sends t (take n (iteration_calls ignore t)).
Proof.
  intros i s. unfold iteration_calls.
  destruct n as [|[|[|[|[|n]]]]]; destruct i as [|[|[|[|[|i]]]]];
    simpl; rewrite ?take_nil; try done.
  all: congruence.
Qed.

Lemma shutting_down_msgs_quiet (f : event -> bool) l :
  (forall x, f (shutting_down_msg x) = false) ->
  Forall (fun ev => f ev = false) (shutting_down_msg <$> l).
Proof. intros H. apply Forall_fmap, Forall_forall. intros x _. apply H. Qed.

Lemma snapshot_names t : ps_name <$> snapshot t = managed_processes host.
Proof.
  unfold snapshot. rewrite <- list_fmap_compose.
  rewrite <- (list_fmap_id (managed_processes host)) at 2.
  apply list_fmap_ext. intros _ p _. unfold get_process_state_msg. simpl.
  by destruct (proc out t p).
Qed.

Lemma control_loop_health ignore fuel w :
  exists t,
    trace (control_loop host out ignore fuel w).2 = trace w ++ t
    /\ fresh_sends (trace w) t
    /\ match (control_loop host out ignore fuel w).1 with
       | Ok _ => count is_send t = count is_update t
                 /\ 1 <= count is_update t <= fuel
       | Pending => count is_send t = fuel /\ count is_update t = fuel
       | Raise _ => (count is_update t = count is_send t
                     \/ count is_update t = S (count is_send t))
                    /\ 1 <= count is_update t <= fuel
       end.
Proof.
  revert w. induction fuel as [|fuel IH]; intros w.
  { exists []. simpl. rewrite app_nil_r.
    split; [done|]. split; [by intros i s|done]. }
  cbn [control_loop].
  destruct (iteration_run ignore w) as [(wc & E & Et & _)|(e & n & E & Hn & Et)].
  - rewrite (check_flags_run shutdown_params false wc) in E by apply exit_reason_not_a_flag.
    rewrite (bind_run _ _ _ _ _ E).
    set (msgs := shutting_down_msg <$> _) in E |- *.
    assert (fresh_sends (trace w) (iteration_calls ignore (trace w) ++ msgs))
      as Hfresh.
    { apply fresh_sends_app.
      - rewrite <- (firstn_all (iteration_calls _ _)).
        apply fresh_sends_iteration.
      - by apply fresh_sends_quiet, shutting_down_msgs_quiet. }
    assert (count is_send (iteration_calls ignore (trace w) ++ msgs) = 1
            /\ count is_update (iteration_calls ignore (trace w) ++ msgs) = 1)
      as [Hs Hu].
    { rewrite !count_app. unfold msgs.
      rewrite !(count_none _ (_ <$> _))
        by by apply shutting_down_msgs_quiet.
      done. }
    destruct (List.filter _ shutdown_params) eqn:Ef.
    + match goal with
      | |- context [control_loop _ _ _ _ ?w1] =>
          destruct (IH w1) as (t2 & Et2 & Hf2 & Hr);
          destruct (control_loop host out ignore fuel w1) as [r2 w2]
      end.
      cbn [trace fst snd] in Et2, Hf2, Hr |- *.
      exists ((iteration_calls ignore (trace w) ++ msgs) ++ t2).
      rewrite Et2, Et, <- !app_assoc.
      split; [done|]. split.
      { rewrite app_assoc. apply fresh_sends_app; [done|].
        by rewrite Et, <- app_assoc in Hf2. }
      rewrite (app_assoc (iteration_calls _ _)), (count_app _ (_ ++ _)),
        (count_app is_update (_ ++ _)), Hs, Hu.
      destruct r2; lia.
    + exists (iteration_calls ignore (trace w) ++ msgs).
      cbn [ret fst snd trace]. rewrite Et, <- app_assoc.
      split; [done|]. split; [done|]. lia.
  - destruct (iteration host out ignore w) as [r w1] eqn:Ei.
    simpl in E, Et. subst r. rewrite (bind_run _ _ _ _ _ Ei).
    exists (take n (iteration_calls ignore (trace w))).
    cbn [fst snd]. split; [done|]. split; [apply fresh_sends_iteration|].
    destruct Hn as [-> | [-> | ->]]; cbn; lia.
Qed.

(** ** The events of each phase *)

Ltac emits_step :=
  first
    [ apply emits_bind; [|intros ?]
    | apply emits_for_each; intros ?
    | apply emits_try_except_finally
    | apply emits_tell
    | apply emits_call
    | solve [auto with emits]
    | match goal with
      | |- emits _ (if ?b then _ else _) => destruct b
      | |- emits _ (match ?x with _ => _ end) => destruct x
      end ].

Definition teardown_event (ev : event) : Prop :=
  match ev with
  | EvStop _ _ | EvLog LInfo _ => True
  | _ => False
  end.

(** The events of the loop, with the one exclusion list handed to the
    orchestration and a status entry for every registered process. *)
Definition thread_event (ignore : list string) (ev : event) : Prop :=
  match ev with
  | EvBind _ | EvLog _ _ | EvLogEnviron _ | EvSubMaster | EvPubMaster
  | EvUpdate | EvPrint _ => True
  | EvEnsureRunning _ not_run => not_run = ignore
  | EvSend s => ps_name <$> s = managed_processes host
  | _ => False
  end.

Lemma manager_init_emits :
  emits (fun ev => is_startup ev = true) (manager_init host).
Proof. unfold manager_init, make_shm. repeat emits_step; done. Qed.

Lemma start_ui_emits : emits (fun ev => ev = EvStart "ui") (start_ui host out).
Proof. unfold start_ui. repeat emits_step; done. Qed.

Lemma manager_prepare_emits :
  emits (fun ev => exists p, ev = EvPrepare p) (manager_prepare host out).
Proof. unfold manager_prepare. repeat emits_step. by eexists. Qed.

Lemma manager_cleanup_emits :
  emits teardown_event (manager_cleanup host out).
Proof. unfold manager_cleanup. repeat emits_step; done. Qed.

Lemma iteration_emits ignore :
  emits (thread_event ignore) (iteration host out ignore).
Proof.
  unfold iteration, history.
  repeat emits_step; try done; try (by apply emits_silent).
  apply snapshot_names.
Qed.

Lemma control_loop_emits ignore fuel :
  emits (thread_event ignore) (control_loop host out ignore fuel).
Proof.
  induction fuel as [|fuel IH]; cbn [control_loop].
  - by apply emits_silent.
  - apply emits_bind; [apply iteration_emits|].
    intros []; [apply emits_ret|apply IH].
Qed.

(** [manager_thread] reads the store and the environment once, on
    entry; all that follows is handed the list computed there. *)
Lemma manager_thread_unfold fuel w :
  manager_thread host out fuel w =
  (call out EvSubMaster ;;
   call out EvPubMaster ;;
   call out (EvEnsureRunning false (exclusion host w)) ;;
   control_loop host out (exclusion host w) fuel)
    (log_event (EvLogEnviron (environ w))
       (log_event (EvLog LInfo "manager start")
          (log_event (EvBind "manager") w))).
Proof. reflexivity. Qed.

Lemma manager_thread_emits fuel w :
  exists t,
    trace (manager_thread host out fuel w).2 = trace w ++ t
    /\ Forall (thread_event (exclusion host w)) t.
Proof.
  rewrite manager_thread_unfold.
  match goal with
  | |- context [?m ?w1] =>
      lazymatch m with
      | bind _ _ =>
          assert (emits (thread_event (exclusion host w)) m) as Hm
            by (repeat emits_step; try done; apply control_loop_emits);
          destruct (Hm w1) as (t & E & F)
      end
  end.
  exists ([EvBind "manager"; EvLog LInfo "manager start";
           EvLogEnviron (environ w)] ++ t).
  rewrite E. cbn [trace log_event]. rewrite <- !app_assoc.
  split; [done|]. by repeat constructor.
Qed.

(** ** The loop under its handlers, and the system action *)

Definition quiet (ev : event) : Prop := is_hardware ev = false.

Lemma quiet_run {A} (Q : event -> Prop) (m : M A) w r w' :
  emits Q m -> (forall ev, Q ev -> quiet ev) -> m w = (r, w') ->
  hardware_calls (trace w) = [] -> hardware_calls (trace w') = [].
Proof.
  intros Hm HQ E Hw. destruct (emits_run _ _ _ _ _ Hm E) as (t & -> & F).
  rewrite hardware_calls_app, Hw. apply hardware_calls_none.
  eapply Forall_impl; [exact F|]. exact HQ.
Qed.

Lemma thread_event_quiet ignore ev : thread_event ignore ev -> quiet ev.
Proof. by destruct ev. Qed.

Lemma teardown_event_quiet ev : teardown_event ev -> quiet ev.
Proof. by destruct ev. Qed.

Lemma manager_thread_quiet fuel : emits quiet (manager_thread host out fuel).
Proof.
  intros w. destruct (manager_thread_emits fuel w) as (t & E & F).
  exists t. split; [done|].
  eapply Forall_impl; [exact F|]. apply thread_event_quiet.
Qed.

Lemma supervise_quiet fuel : emits quiet (supervise host out fuel).
Proof.
  unfold supervise. apply emits_try_except_finally.
  - apply manager_thread_quiet.
  - repeat emits_step; done.
  - eapply emits_weaken; [|apply manager_cleanup_emits].
    apply teardown_event_quiet.
Qed.

(** However the loop is left, what follows is the teardown: directly, or
    after the two calls of the [except] clause when the loop was left by
    an [Exception]. *)
Lemma supervise_run fuel w :
  (manager_thread host out fuel w).1 <> Pending ->
  exists th w2,
    trace w2 = trace (manager_thread host out fuel w).2 ++ th
    /\ (th = []
        \/ (exists e, (manager_thread host out fuel w).1 = Raise e
                      /\ is_Exception e = true)
           /\ (th = [EvPrintExc] \/ th = [EvPrintExc; EvCaptureException]))
    /\ (supervise host out fuel w).2 = (manager_cleanup host out w2).2
    /\ ((supervise host out fuel w).1 = Ok tt ->
        (manager_cleanup host out w2).1 = Ok tt).
Proof.
  unfold supervise, try_except_finally.
  destruct (manager_thread host out fuel w) as [r1 w1]. cbn [fst snd].
  intros Hr1.
  assert (exists th,
            trace (except_Exception
                     (call out EvPrintExc ;; call out EvCaptureException)
                     r1 w1).2 = trace w1 ++ th
            /\ (th = []
                \/ (exists e, r1 = Raise e /\ is_Exception e = true)
                   /\ (th = [EvPrintExc]
                       \/ th = [EvPrintExc; EvCaptureException]))
            /\ (except_Exception
                  (call out EvPrintExc ;; call out EvCaptureException)
                  r1 w1).1 <> Pending)
    as (th & Eth & Hth & Hr2).
  { unfold except_Exception. destruct r1 as [[]|e|]; [| |done].
    { exists []. rewrite app_nil_r. by auto. }
    destruct (is_Exception e) eqn:Ee;
      [|exists []; rewrite app_nil_r; by auto].
    rewrite bind_call.
    destruct (raises out (trace w1 ++ [EvPrintExc])) as [e1|].
    { exists [EvPrintExc]. split; [done|]. split; [|done]. right. eauto. }
    exists [EvPrintExc; EvCaptureException]. unfold call.
    cbn [trace called]. rewrite <- app_assoc.
    split; [by destruct (raises out _)|].
    split; [right; eauto|by destruct (raises out _)]. }
  destruct (except_Exception _ r1 w1) as [r2 w2]. cbn [fst snd] in *.
  exists th, w2. split; [done|]. split; [done|].
  split; [by apply finally_world|]. intros H.
  by apply finally_returns in H as [_ H].
Qed.

(** The flags of the system actions, in the order [main] reads them. *)
Definition action_flags : list (string * action) :=
  [("DoUninstall", Uninstall); ("DoReboot", Reboot); ("DoShutdown", Shutdown)].

(** The action of the first flag that is set, in that order. *)
Definition selected_action (p : gmap string string) : option action :=
  snd <$> List.find (fun fa => Params.bool_value p fa.1) action_flags.

Definition action_name (a : action) : string :=
  match a with
  | Uninstall => "uninstalling"
  | Reboot => "reboot"
  | Shutdown => "shutdown"
  end.

Definition action_calls (p : gmap string string) : list event :=
  match selected_action p with
  | Some a => [EvLog LWarning (action_name a); EvHardware a]
  | None => []
  end.

Lemma system_action_trace w :
  trace (system_action out w).2 = trace w ++ action_calls (params w).
Proof.
  unfold system_action, action_calls, selected_action, action_flags.
  unfold bind at 1. unfold Params.get_bool at 1. cbn [List.find fst snd].
  destruct (Params.bool_value (params w) "DoUninstall").
  { rewrite bind_tell. unfold call. cbn [trace log_event].
    rewrite <- app_assoc. by destruct (raises out _). }
  unfold bind at 1. unfold Params.get_bool at 1. cbn [List.find fst snd].
  destruct (Params.bool_value (params w) "DoReboot").
  { rewrite bind_tell. unfold call. cbn [trace log_event].
    rewrite <- app_assoc. by destruct (raises out _). }
  unfold bind at 1. unfold Params.get_bool at 1. cbn [List.find fst snd].
  destruct (Params.bool_value (params w) "DoShutdown").
  { rewrite bind_tell. unfold call. cbn [trace log_event].
    rewrite <- app_assoc. by destruct (raises out _). }
  cbn. by rewrite app_nil_r.
Qed.

Lemma supervise_pending fuel w :
  (manager_thread host out fuel w).1 = Pending ->
  (supervise host out fuel w).1 = Pending.
Proof.
  unfold supervise, try_except_finally.
  destruct (manager_thread host out fuel w) as [r1 w1]. cbn [fst].
  by intros ->.
Qed.

(** When the loop under its handlers returns, a complete teardown is the
    last thing that happened. *)
Lemma supervise_returns fuel w wc :
  supervise host out fuel w = (Ok tt, wc) ->
  exists t0,
    trace wc = t0 ++ teardown_calls ++ [EvLog LInfo "everything is dead"].
Proof.
  intros E.
  assert ((manager_thread host out fuel w).1 <> Pending) as Hr.
  { intros H. apply supervise_pending in H. by rewrite E in H. }
  destruct (supervise_run fuel w Hr) as (th & w2 & _ & _ & Ew & Hok).
  rewrite E in Ew, Hok. cbn [fst snd] in Ew, Hok.
  specialize (Hok eq_refl).
  pose proof (manager_cleanup_calls w2) as Hc. rewrite Hok, <- Ew in Hc.
  by exists (trace w2).
Qed.

Lemma startup_quiet ev : is_startup ev = true -> quiet ev.
Proof. by destruct ev. Qed.

(** A run of [main] either never calls the hardware, or ends in the
    system action, entered when the loop under its handlers has
    returned. *)
Lemma main_run fuel w :
  hardware_calls (trace w) = [] ->
  hardware_calls (trace (main host out fuel w).2) = []
  \/ exists w3 wc,
       supervise host out fuel w3 = (Ok tt, wc)
       /\ main host out fuel w = system_action out wc
       /\ hardware_calls (trace wc) = [].
Proof.
  intros Hw. remember (main host out fuel w) as res eqn:Em.
  unfold main in Em. unfold bind at 1 in Em. unfold getenv at 1 in Em.
  cbn beta iota zeta in Em.
  set (prepare_only := match environ w !! "PREPAREONLY" with
                       | Some _ => true
                       | None => false
                       end) in Em.
  destruct (manager_init host w) as [r0 w0] eqn:E0.
  rewrite (bind_run _ _ _ _ _ E0) in Em.
  pose proof (quiet_run _ _ _ _ _ manager_init_emits startup_quiet E0 Hw)
    as Q0.
  destruct r0 as [[]|e|]; [|subst res; by left..].
  destruct ((if prepare_only then ret tt else start_ui host out) w0)
    as [r1 w1] eqn:E1.
  rewrite (bind_run _ _ _ _ _ E1) in Em.
  assert (hardware_calls (trace w1) = []) as Q1.
  { destruct prepare_only.
    - by injection E1 as _ <-.
    - eapply quiet_run; [apply start_ui_emits| |exact E1|exact Q0].
      by intros ev ->. }
  destruct r1 as [[]|e|]; [|subst res; by left..].
  destruct (manager_prepare host out w1) as [r2 w2] eqn:E2.
  rewrite (bind_run _ _ _ _ _ E2) in Em.
  assert (hardware_calls (trace w2) = []) as Q2.
  { eapply quiet_run; [apply manager_prepare_emits| |exact E2|exact Q1].
    by intros ev [x ->]. }
  destruct r2 as [[]|e|]; [|subst res; by left..].
  destruct prepare_only; [subst res; by left|].
  rewrite bind_tell in Em.
  destruct (supervise host out fuel (log_event EvSignal w2))
    as [r3 w3] eqn:E3.
  rewrite (bind_run _ _ _ _ _ E3) in Em.
  assert (hardware_calls (trace w3) = []) as Q3.
  { eapply quiet_run; [apply supervise_quiet|done|exact E3|].
    cbn [trace log_event]. by rewrite hardware_calls_app, Q2. }
  destruct r3 as [[]|e|]; [|subst res; by left..].
  right. by exists (log_event EvSignal w2), w3.
Qed.

(** Lines 221-241 without PREPAREONLY: when start-up, the start of ui,
    the preparation and the loop under its handlers have returned,
    what is left of [main] is the system action. *)
Lemma main_reaches_dispatch fuel w wc :
  environ w !! "PREPAREONLY" = None ->
  (manager_init host ;; start_ui host out ;; manager_prepare host out ;;
   tell EvSignal ;; supervise host out fuel) w = (Ok tt, wc) ->
  main host out fuel w = system_action out wc
  /\ (hardware_calls (trace w) = [] -> hardware_calls (trace wc) = []).
Proof.
  intros Hf E. split.
  - unfold main. unfold bind at 1. unfold getenv at 1.
    cbn beta iota zeta. rewrite Hf. cbv iota.
    unfold bind in E |- *.
    destruct (manager_init host w) as [[[]|?|] w0]; try discriminate E.
    destruct (start_ui host out w0) as [[[]|?|] w1]; try discriminate E.
    destruct (manager_prepare host out w1) as [[[]|?|] w2];
      try discriminate E.
    unfold tell in E |- *.
    destruct (supervise host out fuel (log_event EvSignal w2))
      as [[[]|?|] w3]; try discriminate E.
    by injection E as ->.
  - intros Hw.
    assert (emits quiet
              (manager_init host ;; start_ui host out ;;
               manager_prepare host out ;; tell EvSignal ;;
               supervise host out fuel)) as Hq.
    { apply emits_bind.
      { eapply emits_weaken; [|apply manager_init_emits].
        apply startup_quiet. }
      intros _. apply emits_bind.
      { eapply emits_weaken; [|apply start_ui_emits]. by intros ev ->. }
      intros _. apply emits_bind.
      { eapply emits_weaken; [|apply manager_prepare_emits].
        by intros ev [x ->]. }
      intros _. apply emits_bind; [by apply emits_tell|].
      intros _. apply supervise_quiet. }
    by eapply quiet_run; [exact Hq| |exact E|exact Hw].
Qed.

(** The dispatch reads the flags in the order of lines 244-252. *)
Lemma selected_action_order s :
  selected_action s
  = if Params.bool_value s "DoUninstall" then Some Uninstall
    else if Params.bool_value s "DoReboot" then Some Reboot
    else if Params.bool_value s "DoShutdown" then Some Shutdown
    else None.
Proof.
  unfold selected_action, action_flags. cbn [List.find fst snd].
  destruct (Params.bool_value s "DoUninstall"); [done|].
  destruct (Params.bool_value s "DoReboot"); [done|].
  by destruct (Params.bool_value s "DoShutdown").
Qed.

(** A run of [main] calls the hardware at most once. *)
Lemma main_calls_the_hardware_once fuel w :
  hardware_calls (trace w) = [] ->
  List.length (hardware_calls (trace (main host out fuel w).2)) <= 1.
Proof.
  intros Hw.
  destruct (main_run fuel w Hw) as [Hq|(w3 & wc & Es & Em & Hqc)].
  - rewrite Hq. simpl. lia.
  - rewrite Em, system_action_trace, hardware_calls_app, Hqc.
    unfold action_calls.
    destruct (selected_action (params wc)); simpl; lia.
Qed.

(** A turn is cut short by the call that raises (the update, the
    orchestration or the publication), or reaches the check of the
    flags after its five calls. *)
Lemma iteration_outcome (ignore : list string) (w : World) :
  (exists e n w1,
      (n = 1 \/ n = 2 \/ n = 5)
      /\ raises out (trace w ++ take n (iteration_calls ignore (trace w)))
         = Some e
      /\ iteration host out ignore w = (Raise e, w1)
      /\ trace w1 = trace w ++ take n (iteration_calls ignore (trace w)))
  \/ (exists wc,
        iteration host out ignore w = check_flags shutdown_params false wc
        /\ trace wc = trace w ++ iteration_calls ignore (trace w)
        /\ environ wc = environ w).
Proof.
  unfold iteration. rewrite bind_call.
  destruct (raises out (trace w ++ [EvUpdate])) as [e|] eqn:E1.
  { left. exists e, 1. eexists. split; [auto|]. by split. }
  rewrite bind_history, bind_call. cbn [trace called].
  match goal with
  | |- context [raises out ?t] => destruct (raises out t) as [e|] eqn:E2
  end.
  { left. exists e, 2. eexists. split; [auto|].
    cbn [take iteration_calls]. rewrite <- app_assoc in E2.
    split; [exact E2|]. split; [reflexivity|].
    cbn [trace called]. by rewrite <- app_assoc. }
  rewrite bind_history, !bind_tell, bind_history, bind_call.
  cbn [trace called log_event params environ].
  match goal with
  | |- context [raises out ?t] => destruct (raises out t) as [e|] eqn:E3
  end.
  { left. exists e, 5. eexists. split; [auto|].
    cbn [take iteration_calls]. rewrite <- !app_assoc in E3. cbn [app] in E3.
    split; [exact E3|]. split; [reflexivity|].
    cbn [trace called log_event]. by rewrite <- !app_assoc. }
  right. eexists. split; [reflexivity|].
  cbn [trace called environ log_event].
  rewrite <- ?app_assoc. done.
Qed.

(** ** The claims about the lifecycle *)

(** C1. In every run of [main] at most one of the three system actions
    (uninstall, reboot, shutdown) is called.  When one is called, the
    loop under its handlers had returned, a complete teardown is what
    the trace ends with at that point, and the action is that of the
    first flag set in the order uninstall, reboot, shutdown.  And it is
    called: once start-up, the start of ui, the preparation and the
    loop under its handlers have returned, the run ends with the
    warning and the hardware call of the first flag set in that order,
    and with nothing more when no flag is set. *)
Theorem one_action_after_teardown (fuel : nat) (p e : gmap string string) :
  let w' := (main host out fuel (boot p e)).2 in
  List.length (hardware_calls (trace w')) <= 1
  /\ (forall a, EvHardware a ∈ trace w' ->
       exists w3 wc t0,
         supervise host out fuel w3 = (Ok tt, wc)
         /\ main host out fuel (boot p e) = system_action out wc
         /\ trace wc
            = t0 ++ teardown_calls ++ [EvLog LInfo "everything is dead"]
         /\ hardware_calls (trace wc) = []
         /\ selected_action (params wc) = Some a
         /\ trace w'
            = trace wc ++ [EvLog LWarning (action_name a); EvHardware a])
  /\ (forall wc,
        environ (boot p e) !! "PREPAREONLY" = None ->
        (manager_init host ;; start_ui host out ;; manager_prepare host out ;;
         tell EvSignal ;; supervise host out fuel) (boot p e) = (Ok tt, wc) ->
        main host out fuel (boot p e) = system_action out wc
        /\ trace w'
           = trace wc
             ++ match selected_action (params wc) with
                | Some a => [EvLog LWarning (action_name a); EvHardware a]
                | None => []
                end
        /\ hardware_calls (trace w')
           = match selected_action (params wc) with
             | Some a => [a]
             | None => []
             end)
  /\ (forall s,
        selected_action s
        = if Params.bool_value s "DoUninstall" then Some Uninstall
          else if Params.bool_value s "DoReboot" then Some Reboot
          else if Params.bool_value s "DoShutdown" then Some Shutdown
          else None).
Proof.
  intros w'. subst w'.
  split; [by apply main_calls_the_hardware_once|].
  split; [|split; [|apply selected_action_order]].
  - destruct (main_run fuel (boot p e) eq_refl)
      as [Hq|(w3 & wc & Es & Em & Hqc)].
    + intros a Ha. apply hardware_calls_elem in Ha. rewrite Hq in Ha.
      by apply elem_of_nil in Ha.
    + rewrite Em, system_action_trace.
      unfold action_calls.
      destruct (selected_action (params wc)) as [a0|] eqn:Esel.
      * intros a Ha.
        apply elem_of_app in Ha as [Ha|Ha].
        { apply hardware_calls_elem in Ha. rewrite Hqc in Ha.
          by apply elem_of_nil in Ha. }
        apply elem_of_cons in Ha as [Ha|Ha]; [done|].
        apply list_elem_of_singleton in Ha as [= <-].
        destruct (supervise_returns _ _ _ Es) as (t0 & Et0).
        by exists w3, wc, t0.
      * intros a Ha. rewrite app_nil_r in Ha.
        apply hardware_calls_elem in Ha. rewrite Hqc in Ha.
        by apply elem_of_nil in Ha.
  - intros wc Hf Hrun.
    destruct (main_reaches_dispatch fuel (boot p e) wc Hf Hrun) as [Em Hq].
    specialize (Hq eq_refl).
    split; [exact Em|]. rewrite Em, system_action_trace.
    unfold action_calls. split; [done|].
    rewrite hardware_calls_app, Hq.
    by destruct (selected_action (params wc)).
Qed.

(** C2. However [manager_thread] is left, by returning or by any
    exception, [manager_cleanup] runs next (after the two calls of the
    [except] clause when the exception is an [Exception]), and it asks
    every process to stop without waiting, in the order of the registry,
    and then stops every one of them in the same order, waiting; a run
    of it is cut short only by a stop that raises. *)
Theorem teardown_two_phase_on_every_exit (fuel : nat) (w : World) :
  (manager_thread host out fuel w).1 <> Pending ->
  exists th w2,
    trace w2 = trace (manager_thread host out fuel w).2 ++ th
    /\ (th = []
        \/ (exists e, (manager_thread host out fuel w).1 = Raise e
                      /\ is_Exception e = true)
           /\ (th = [EvPrintExc] \/ th = [EvPrintExc; EvCaptureException]))
    /\ (supervise host out fuel w).2 = (manager_cleanup host out w2).2
    /\ match (manager_cleanup host out w2).1 with
       | Ok _ =>
           trace (manager_cleanup host out w2).2
           = trace w2
             ++ ((fun p => EvStop p false) <$> managed_processes host)
             ++ ((fun p => EvStop p true) <$> managed_processes host)
             ++ [EvLog LInfo "everything is dead"]
       | Raise e =>
           exists n,
             1 <= n <= List.length teardown_calls
             /\ trace (manager_cleanup host out w2).2
                = trace w2 ++ take n teardown_calls
             /\ raises out (trace (manager_cleanup host out w2).2) = Some e
       | Pending => False
       end.
Proof.
  intros Hr. destruct (supervise_run fuel w Hr) as (th & w2 & Et & Hth & Ew & _).
  exists th, w2. split; [done|]. split; [done|]. split; [done|].
  pose proof (manager_cleanup_calls w2) as Hc.
  destruct (manager_cleanup host out w2).1; [|done..].
  rewrite Hc. unfold teardown_calls. by rewrite <- !app_assoc.
Qed.

(** C3 (as amended).  Every turn of the loop that no call cuts short
    reads the flags DoUninstall, DoShutdown, DoReboot in that order;
    each flag that is set is written to LastManagerExitReason and
    logged, one after the other, and the loop returns in that turn
    exactly when one of them is set, and goes on to the next turn
    otherwise.  So when the loop returns, at least one flag is set and
    the reason left in the store is the last of those that are set.
    And a run of [main] acts upon one reason at most. *)
Theorem exit_reason_is_last_flag_set
    (ignore : list string) (fuel : nat) (w : World) :
  (forall w',
      control_loop host out ignore fuel w = (Ok tt, w') ->
      flags_set (params w') <> []
      /\ params w' !! "LastManagerExitReason" = last (flags_set (params w'))
      /\ exists t0,
           trace w' = t0 ++ (shutting_down_msg <$> flags_set (params w')))
  /\ ((exists e n w1,
         (n = 1 \/ n = 2 \/ n = 5)
         /\ raises out (trace w ++ take n (iteration_calls ignore (trace w)))
            = Some e
         /\ control_loop host out ignore (S fuel) w = (Raise e, w1)
         /\ trace w1 = trace w ++ take n (iteration_calls ignore (trace w)))
      \/ (exists wc,
            trace wc = trace w ++ iteration_calls ignore (trace w)
            /\ environ wc = environ w
            /\ let flags := flags_set (params wc) in
               let checked :=
                 {| params :=
                      match last flags with
                      | Some x => <["LastManagerExitReason" := x]> (params wc)
                      | None => params wc
                      end;
                    environ := environ wc;
                    trace := trace wc ++ (shutting_down_msg <$> flags) |} in
               control_loop host out ignore (S fuel) w
               = if bool_decide (flags <> []) then (Ok tt, checked)
                 else control_loop host out ignore fuel checked))
  /\ (forall p e,
        List.length
          (hardware_calls (trace (main host out fuel (boot p e)).2)) <= 1).
Proof.
  split; [|split].
  - intros w' E. apply control_loop_exit in E as (wc & E).
    rewrite check_flags_run in E by apply exit_reason_not_a_flag.
    fold (flags_set (params wc)) in E.
    injection E as Hb <-. cbn [params trace].
    destruct (flags_set (params wc)) as [|x l] eqn:Ef; [done|].
    destruct (last (x :: l)) as [y|] eqn:El;
      [|by rewrite last_cons in El; destruct (last l)].
    rewrite flags_set_insert, Ef. split; [done|].
    split; [by rewrite lookup_insert_eq|]. by exists (trace wc).
  - cbn [control_loop].
    destruct (iteration_outcome ignore w)
      as [(e & n & w1 & Hn & Hr & E & Et)|(wc & E & Et & Ee)].
    + left. exists e, n, w1. split; [done|]. split; [done|].
      split; [|done]. by rewrite (bind_run _ _ _ _ _ E).
    + right. exists wc. split; [done|]. split; [done|]. cbv zeta.
      rewrite (check_flags_run shutdown_params false wc) in E
        by apply exit_reason_not_a_flag.
      rewrite (bind_run _ _ _ _ _ E). unfold flags_set.
      destruct (List.filter (Params.bool_value (params wc)) shutdown_params)
        as [|x l]; [by rewrite bool_decide_eq_false_2 by (by intros H)|].
      by rewrite bool_decide_eq_true_2.
  - intros p e. by apply main_calls_the_hardware_once.
Qed.



(** C9.  Every publication of the loop carries one status entry for
    each registered process, in the order of the registry, taken from
    the handles at that very point; and there is one publication for
    each turn of the loop (each update), the last turn included, a turn
    that an exception cut short before its publication apart. *)
Theorem health_published_every_iteration
    (ignore : list string) (fuel : nat) (w : World) :
  (forall t, ps_name <$> snapshot t = managed_processes host)
  /\ exists t,
       trace (control_loop host out ignore fuel w).2 = trace w ++ t
       /\ fresh_sends (trace w) t
       /\ match (control_loop host out ignore fuel w).1 with
          | Ok _ => count is_send t = count is_update t
                    /\ 1 <= count is_update t <= fuel
          | Pending => count is_send t = fuel /\ count is_update t = fuel
          | Raise _ => (count is_update t = count is_send t
                        \/ count is_update t = S (count is_send t))
                       /\ 1 <= count is_update t <= fuel
          end.
Proof. split; [apply snapshot_names|apply control_loop_health]. Qed.

(** ** Start-up *)

Lemma bind_get {B} k (f : option string -> M B) w :
  bind (Params.get k) f w = f (params w !! k) w.
Proof. done. Qed.

Lemma bind_get_bool {B} k (f : bool -> M B) w :
  bind (Params.get_bool k) f w = f (Params.bool_value (params w) k) w.
Proof. done. Qed.

Lemma bind_put {B} k v (f : unit -> M B) w :
  bind (Params.put k v) f w =
  f tt {| params := <[k := v]> (params w); environ := environ w;
          trace := trace w |}.
Proof. done. Qed.

Lemma bind_put_bool {B} k b (f : unit -> M B) w :
  bind (Params.put_bool k b) f w =
  f tt {| params := <[k := if b then "1" else "0"]> (params w);
          environ := environ w; trace := trace w |}.
Proof. done. Qed.

Lemma bind_clear_all {B} tagged (f : unit -> M B) w :
  bind (Params.clear_all tagged) f w =
  f tt {| params := Params.cleared tagged (params w); environ := environ w;
          trace := trace w |}.
Proof. done. Qed.

Lemma bind_getenv {B} k (f : option string -> M B) w :
  bind (getenv k) f w = f (environ w !! k) w.
Proof. done. Qed.

Lemma bind_setenv {B} k v (f : unit -> M B) w :
  bind (setenv k v) f w =
  f tt {| params := params w; environ := <[k := v]> (environ w);
          trace := trace w |}.
Proof. done. Qed.

Lemma bind_ret {A B} (a : A) (f : A -> M B) w : bind (ret a) f w = f a w.
Proof. done. Qed.

Lemma bind_raise {A B} e (f : A -> M B) w :
  bind (raise e) f w = (Raise e, w).
Proof. done. Qed.

(** The store after lines 101-102. *)
Definition record_front (p : gmap string string) : gmap string string :=
  if Params.bool_value p "RecordFrontLock" then <["RecordFront" := "1"]> p
  else p.

(** The store after the loop of lines 105-107 over the table [l]. *)
Definition with_defaults (l : list (string * string))
    (p : gmap string string) : gmap string string :=
  foldl (fun p kv => match p !! kv.1 with
                     | None => <[kv.1 := kv.2]> p
                     | Some _ => p
                     end) p l.

Definition store_defaults (w : World) : gmap string string :=
  with_defaults (default_params host)
    (record_front (Params.cleared (clear_on_manager_start host) (params w))).

(** The store after lines 110-111. *)
Definition store_mode (w : World) : gmap string string :=
  match environ w !! "PASSIVE" with
  | Some text =>
      match int host text with
      | Some n =>
          <["Passive" := if Py.bool_of_int n then "1" else "0"]>
            (store_defaults w)
      | None => store_defaults w
      end
  | None => store_defaults w
  end.

(** The store after lines 125-131. *)
Definition store_version (p : gmap string string) : gmap string string :=
  <["IsTestedBranch" := if is_tested_branch host then "1" else "0"]>
    (<["GitRemote" := get_origin host]>
       (<["GitBranch" := get_short_branch host]>
          (<["GitCommit" := get_commit host]>
             (<["TrainingVersion" := training_version host]>
                (<["TermsVersion" := terms_version host]>
                   (<["Version" := get_version host]> p)))))).

(** The environment after lines 140-143. *)
Definition environ_exported (e : gmap string string) : gmap string string :=
  let e' := <["DONGLE_ID" := default "" (register host)]> e in
  if is_dirty host then e' else <["CLEAN" := "1"]> e'.

Definition shm_events : list event :=
  EvMkdirShm ::
  match mkdir_shm host with
  | PermissionDenied => [EvPrint "WARNING: failed to make /dev/shm"]
  | _ => []
  end.

Definition passive_readable (w : World) : Prop :=
  forall text, environ w !! "PASSIVE" = Some text -> is_Some (int host text).

Lemma for_each_defaults l w :
  for_each l (fun kv : string * string =>
                do cur <- Params.get kv.1 ;
                match cur with
                | None => Params.put kv.1 kv.2
                | Some _ => ret tt
                end) w
  = (Ok tt, {| params := with_defaults l (params w); environ := environ w;
               trace := trace w |}).
Proof.
  revert w. induction l as [|[k v] l IH]; intros w.
  - by destruct w.
  - cbn [for_each with_defaults foldl fst snd].
    unfold bind at 1. rewrite bind_get.
    destruct (params w !! k); cbn [ret Params.put]; by rewrite IH.
Qed.

Lemma make_shm_run {B} (f : unit -> M B) w :
  bind (make_shm host) f w =
  f tt {| params := params w; environ := environ w;
          trace := trace w ++ shm_events |}.
Proof.
  unfold make_shm, shm_events. rewrite bind_assoc, bind_tell.
  destruct (mkdir_shm host); rewrite ?bind_ret, ?bind_tell;
    unfold log_event; cbn [trace params environ];
    by rewrite <- ?app_assoc.
Qed.

Ltac init_step :=
  first
    [ rewrite bind_tell | rewrite bind_get | rewrite bind_get_bool
    | rewrite bind_put | rewrite bind_put_bool | rewrite bind_clear_all
    | rewrite bind_getenv | rewrite bind_setenv | rewrite bind_ret
    | rewrite bind_raise | rewrite make_shm_run ];
  unfold log_event; cbn [params environ trace].

Ltac init_step_in H :=
  first
    [ rewrite bind_tell in H | rewrite bind_get in H
    | rewrite bind_get_bool in H | rewrite bind_put in H
    | rewrite bind_put_bool in H | rewrite bind_clear_all in H
    | rewrite bind_getenv in H | rewrite bind_setenv in H
    | rewrite bind_ret in H | rewrite bind_raise in H
    | rewrite make_shm_run in H ];
  unfold log_event in H; cbn [params environ trace] in H.

(** The four ways [manager_init] ends: an override that is no integer,
    no mode, no dongle id, or the return. *)
Lemma manager_init_cases (w : World) :
  let t0 := trace w ++ [EvSetTime; EvBootlog] in
  (exists text,
      environ w !! "PASSIVE" = Some text /\ int host text = None
      /\ manager_init host w =
         (Raise (ValueError text),
          {| params := store_defaults w; environ := environ w;
             trace := t0 |}))
  \/ (passive_readable w /\ store_mode w !! "Passive" = None
      /\ manager_init host w =
         (Raise (Exception "Passive must be set to continue"),
          {| params := store_mode w; environ := environ w; trace := t0 |}))
  \/ (passive_readable w /\ is_Some (store_mode w !! "Passive")
      /\ Py.truthy (register host) = false
      /\ manager_init host w =
         (Raise (Exception
                   ("Registration failed for device "
                    ++ Py.format
                         (store_version (store_mode w) !! "HardwareSerial"))),
          {| params := store_version (store_mode w); environ := environ w;
             trace := t0 ++ shm_events ++ [EvRegister] |}))
  \/ (passive_readable w /\ is_Some (store_mode w !! "Passive")
      /\ Py.truthy (register host) = true
      /\ manager_init host w =
         (Ok tt,
          {| params := store_version (store_mode w);
             environ := environ_exported (environ w);
             trace := t0 ++ shm_events
                      ++ [EvRegister; EvSentryInit;
                          EvBindGlobal (default "" (register host))
                            (get_version host) (is_dirty host)
                            (get_device_type host)]
                      ++ (if error_txt_isfile host then [EvRemoveErrorTxt]
                          else []) |})).
Proof.
  intros t0. subst t0.
  remember (manager_init host w) as res eqn:Em.
  unfold manager_init in Em. do 4 init_step_in Em.
  assert (forall B (f : unit -> M B) p0 e0 t0,
             bind (if Params.bool_value p0 "RecordFrontLock"
                   then Params.put_bool "RecordFront" true else ret tt) f
               {| params := p0; environ := e0; trace := t0 |}
             = f tt {| params := record_front p0; environ := e0;
                       trace := t0 |}) as Hrf.
  { intros B f p0 e0 t0. unfold record_front.
    destruct (Params.bool_value p0 "RecordFrontLock"); by init_step. }
  rewrite Hrf in Em.
  rewrite (bind_run _ _ _ _ _ (for_each_defaults _ _)) in Em.
  cbn [params environ trace] in Em.
  assert (store_defaults w
          = with_defaults (default_params host)
              (record_front
                 (Params.cleared (clear_on_manager_start host) (params w))))
    as Hsd by reflexivity.
  rewrite <- Hsd in Em. clear Hsd.
  init_step_in Em. rewrite <- app_assoc in Em. cbn [app] in Em.
  assert (passive_readable w
          \/ exists text, environ w !! "PASSIVE" = Some text
                          /\ int host text = None) as [Hp|(text & Ht & Hi)].
  { unfold passive_readable.
    destruct (environ w !! "PASSIVE") as [text|] eqn:Ht; [|left; by intros].
    destruct (int host text) as [n|] eqn:Hi; [|right; eauto].
    left. intros ? [= <-]. by rewrite Hi. }
  2:{ left. exists text. rewrite Ht, Hi in Em. by init_step_in Em. }
  right.
  assert (forall B (f : unit -> M B),
             bind (match environ w !! "PASSIVE" with
                   | Some text =>
                       match int host text with
                       | Some n =>
                           Params.put_bool "Passive" (Py.bool_of_int n)
                       | None => raise (ValueError text)
                       end
                   | None => ret tt
                   end) f
               {| params := store_defaults w; environ := environ w;
                  trace := trace w ++ [EvSetTime; EvBootlog] |}
             = f tt {| params := store_mode w; environ := environ w;
                       trace := trace w ++ [EvSetTime; EvBootlog] |}) as Hm.
  { intros B f. unfold store_mode.
    destruct (environ w !! "PASSIVE") as [text|] eqn:Ht; [|by init_step].
    destruct (Hp text Ht) as [n ->]. by init_step. }
  rewrite Hm in Em. init_step_in Em.
  destruct (store_mode w !! "Passive") as [mode|] eqn:Emode;
    [|left; by init_step_in Em].
  right. do 9 init_step_in Em.
  assert (forall p0,
             <["IsTestedBranch" := if is_tested_branch host then "1" else "0"]>
               (<["GitRemote" := get_origin host]>
                  (<["GitBranch" := get_short_branch host]>
                     (<["GitCommit" := get_commit host]>
                        (<["TrainingVersion" := training_version host]>
                           (<["TermsVersion" := terms_version host]>
                              (<["Version" := get_version host]> p0))))))
             = store_version p0) as Hsv by reflexivity.
  rewrite Hsv in Em. clear Hsv.
  init_step_in Em.
  destruct (Py.truthy (register host)) eqn:Ereg.
  - right. split; [done|]. split; [by eexists|]. split; [done|].
    do 2 init_step_in Em.
    assert (forall (f : unit -> M unit) p0 t0,
               bind (if is_dirty host then ret tt else setenv "CLEAN" "1") f
                 {| params := p0;
                    environ := <["DONGLE_ID" := default "" (register host)]>
                                 (environ w);
                    trace := t0 |}
               = f tt {| params := p0;
                         environ := environ_exported (environ w);
                         trace := t0 |}) as Hd.
    { intros f p0 t0. unfold environ_exported.
      destruct (is_dirty host); by init_step. }
    rewrite Hd in Em. do 2 init_step_in Em.
    subst res.
    destruct (error_txt_isfile host); unfold tell, ret, log_event;
      cbn [params environ trace]; rewrite <- ?app_assoc;
      cbn [app]; by rewrite ?app_nil_r.
  - left. split; [done|]. split; [by eexists|]. split; [done|].
    rewrite bind_assoc in Em. do 2 init_step_in Em.
    subst res. by rewrite <- ?app_assoc.
Qed.

(** *** The stores of start-up, key by key *)


Lemma with_defaults_other l p k :
  k ∉ l.*1 -> with_defaults l p !! k = p !! k.
Proof.
  revert p. induction l as [|[k0 v0] l IH]; intros p H; [done|].
  apply not_elem_of_cons in H as [Hk Hl].
  cbn [with_defaults foldl fst snd].
  change (foldl _ ?q l) with (with_defaults l q). rewrite IH by done.
  destruct (p !! k0); [done|]. by rewrite lookup_insert_ne.
Qed.

Lemma with_defaults_lookup l p k v :
  NoDup l.*1 -> (k, v) ∈ l ->
  with_defaults l p !! k = Some (default v (p !! k)).
Proof.
  revert p. induction l as [|[k0 v0] l IH]; intros p Hnd Hin.
  { by apply elem_of_nil in Hin. }
  apply NoDup_cons in Hnd as [Hk0 Hnd].
  cbn [with_defaults foldl fst snd].
  change (foldl _ ?q l) with (with_defaults l q).
  apply elem_of_cons in Hin as [[= -> ->]|Hin].
  - rewrite with_defaults_other by done.
    destruct (p !! k0) eqn:E0; [by rewrite E0|]. by rewrite lookup_insert_eq.
  - rewrite IH by done.
    assert (k <> k0) as Hne.
    { intros ->. apply Hk0. apply list_elem_of_fmap. by exists (k0, v). }
    destruct (p !! k0); [done|]. by rewrite lookup_insert_ne.
Qed.

(** The keys that [manager_init] writes after the table (lines 111 and
    125-131); line 102 writes RecordFront before it. *)
Definition version_keys : list string :=
  [ "Version"; "TermsVersion"; "TrainingVersion"; "GitCommit"; "GitBranch";
    "GitRemote"; "IsTestedBranch" ].

Definition later_keys : list string := "Passive" :: version_keys.

Lemma default_keys_nodup : NoDup (default_params host).*1.
Proof.
  unfold default_params.
  destruct (PC host); apply (bool_decide_unpack _); by vm_compute.
Qed.

Lemma default_keys_not_written k v :
  (k, v) ∈ default_params host -> k ∉ "RecordFront" :: later_keys.
Proof.
  assert (Forall (fun kv : string * string =>
                    kv.1 ∉ "RecordFront" :: later_keys)
            (default_params host)) as H.
  { unfold default_params.
    destruct (PC host); apply (bool_decide_unpack _); by vm_compute. }
  intros Hin. rewrite Forall_forall in H. apply (H _ Hin).
Qed.

Lemma table_keys_other k :
  k ∈ "RecordFront" :: later_keys -> k ∉ (default_params host).*1.
Proof.
  intros Hk Hin. apply list_elem_of_fmap in Hin as ([k' v] & -> & Hin).
  by apply default_keys_not_written in Hin.
Qed.

Lemma record_front_other p k :
  k <> "RecordFront" -> record_front p !! k = p !! k.
Proof.
  intros H. unfold record_front.
  destruct (Params.bool_value p "RecordFrontLock"); [|done].
  by rewrite lookup_insert_ne.
Qed.

Lemma store_mode_other w k :
  k <> "Passive" -> store_mode w !! k = store_defaults w !! k.
Proof.
  intros H. unfold store_mode.
  destruct (environ w !! "PASSIVE") as [text|]; [|done].
  destruct (int host text); [|done]. by rewrite lookup_insert_ne.
Qed.

Lemma store_version_other p k :
  k ∉ version_keys -> store_version p !! k = p !! k.
Proof.
  intros H. unfold store_version, version_keys in *.
  rewrite !not_elem_of_cons in H.
  destruct H as (? & ? & ? & ? & ? & ? & ? & _).
  by rewrite !lookup_insert_ne.
Qed.

Lemma cleared_lookup tagged (p : gmap string string) k :
  Params.cleared tagged p !! k = if tagged k then None else p !! k.
Proof.
  unfold Params.cleared. destruct (tagged k) eqn:Et.
  - apply map_lookup_filter_None. right. intros x _. cbn. congruence.
  - destruct (p !! k) as [x|] eqn:Ep.
    + by apply map_lookup_filter_Some.
    + apply map_lookup_filter_None. by left.
Qed.

(** The store [manager_init] leaves, whatever its outcome, agrees with
    the store after the table on every key it does not write later. *)
Lemma manager_init_store w k :
  k ∉ later_keys ->
  params (manager_init host w).2 !! k = store_defaults w !! k.
Proof.
  intros Hk. unfold later_keys in Hk.
  apply not_elem_of_cons in Hk as [Hp Hv].
  destruct (manager_init_cases w)
    as [(text & _ & _ & ->)|[(_ & _ & ->)|[(_ & _ & _ & ->)|(_ & _ & _ & ->)]]];
    cbn [snd params]; rewrite ?store_version_other by done;
    by rewrite ?store_mode_other.
Qed.

(** When [manager_init] raises, [main] ends there. *)
Lemma main_init_raises fuel w e :
  (manager_init host w).1 = Raise e ->
  main host out fuel w = manager_init host w.
Proof.
  intros H. unfold main. rewrite bind_getenv.
  destruct (manager_init host w) as [r w0] eqn:E. cbn [fst] in H. subst r.
  by rewrite (bind_run _ _ _ _ _ E).
Qed.

Lemma store_defaults_table w k v :
  (k, v) ∈ default_params host ->
  store_defaults w !! k
  = Some (default v
            (Params.cleared (clear_on_manager_start host) (params w) !! k)).
Proof.
  intros Hin. unfold store_defaults.
  rewrite (with_defaults_lookup _ _ k v) by (apply default_keys_nodup || done).
  pose proof (default_keys_not_written _ _ Hin) as Hk.
  apply not_elem_of_cons in Hk as [Hk _]. by rewrite record_front_other.
Qed.

(** ** The claims about start-up *)

(** C4.  For every pair (key, default) of the table of [manager_init]:
    whatever the outcome of [manager_init], and so when it returns, a
    key that was unset holds its default afterwards and a key that was
    set keeps its value.  Unset and set are meant as [clear_all] leaves
    the store on line 38, which for a key without the tag is how the
    store was on entry. *)
Theorem defaults_fill_only_unset_keys (w : World) (k v : string) :
  (manager_init host w).1 = Ok tt ->
  (k, v) ∈ default_params host ->
  let before := Params.cleared (clear_on_manager_start host) (params w) in
  let after := params (manager_init host w).2 in
  (before !! k = None -> after !! k = Some v)
  /\ (forall x, before !! k = Some x -> after !! k = Some x)
  /\ (clear_on_manager_start host k = false -> before !! k = params w !! k).
Proof.
  intros _ Hin before after.
  assert (after !! k = Some (default v (before !! k))) as Ha.
  { subst after before. rewrite manager_init_store.
    - by apply store_defaults_table.
    - pose proof (default_keys_not_written _ _ Hin) as Hk.
      by apply not_elem_of_cons in Hk as [_ Hk]. }
  split; [by intros E; rewrite Ha, E|].
  split; [by intros x E; rewrite Ha, E|].
  intros Ht. subst before. by rewrite cleared_lookup, Ht.
Qed.


End Lifecycle.

(** * Runs on a device *)

(** A device with three managed processes, a registered dongle and a
    parameter store whose shutdown flags are cleared at start. *)
Definition tici : Host :=
  {| int := Py.int;
     PC := false;
     utcnow_isoformat := "2023-03-01T12:00:00";
     clear_on_manager_start := fun k => bool_decide (k ∈ shutdown_params);
     mkdir_shm := FileExists;
     get_version := "0.9.1";
     terms_version := "2";
     training_version := "0.2.0";
     get_commit := "4f2a9c1";
     get_short_branch := "dev-c3";
     get_origin := "origin";
     is_tested_branch := false;
     is_dirty := false;
     register := Some "a0b1c2d3e4f5a6b7";
     get_device_type := "tici";
     error_txt_isfile := false;
     UNREGISTERED_DONGLE_ID := "UnregisteredDevice";
     managed_processes := ["ui"; "pandad"; "uploader"] |}.

(** A quiet outside: nothing raises and nobody writes to the store. *)
Definition quiet_outside : Outside :=
  {| raises := fun _ => None;
     writes := fun _ p => p;
     started := fun _ => true;
     proc := fun _ _ => None |}.

(** An operator who sets DoUninstall and DoReboot together while the
    loop waits in its update. *)
Definition two_flags_outside : Outside :=
  {| raises := fun _ => None;
     writes := fun t p =>
       match last t with
       | Some EvUpdate => <["DoReboot" := "1"]> (<["DoUninstall" := "1"]> p)
       | _ => p
       end;
     started := fun _ => true;
     proc := fun _ _ => None |}.


(** The store of a device that has run before, in active mode. *)
Definition used_store : gmap string string :=
  {[ "Passive" := "0"; "RecordFrontLock" := "1"; "RecordFront" := "0";
     "LanguageSetting" := "main_fr" ]}.

(** An operator who asks for a reboot while the loop waits in its
    second update. *)
Definition reboot_request_outside : Outside :=
  {| raises := fun _ => None;
     writes := fun t p =>
       match last t with
       | Some EvUpdate =>
           if (count is_update t =? 2)%nat then <["DoReboot" := "1"]> p
           else p
       | _ => p
       end;
     started := fun _ => true;
     proc := fun _ p =>
       Some {| proc_alive := true; proc_shutting_down := false;
               proc_pid := 100; proc_exitcode := 0 |} |}.

(** SIGTERM arrives while the loop waits in its second update. *)
Definition sigterm_outside : Outside :=
  {| raises := fun t =>
       match last t with
       | Some EvUpdate =>
           if (count is_update t =? 2)%nat then Some (SystemExit 1)
           else None
       | _ => None
       end;
     writes := fun _ p => p;
     started := fun _ => true;
     proc := fun _ _ => None |}.

Example split_of_a_block_list :
  Py.split "," "a,,b," = ["a"; ""; "b"; ""] /\ Py.split "," "" = [""].
Proof. by vm_compute. Qed.

Example format_of_serials :
  Py.format None = "None"
  /\ Py.format (Some "a1b2") = "b'a1b2'"
  /\ Py.format (Some "it's")
     = String "b" (String Py.double_quote
                     ("it's" ++ String Py.double_quote ""))%string
  /\ Py.format (Some (String "a" (String "010" (String "255" ""))))
     = ("b'a" ++ String Py.backslash "n" ++ String Py.backslash "xff"
        ++ "'")%string
  /\ Py.format (Some (String Py.backslash ""))
     = ("b'" ++ String Py.backslash (String Py.backslash "'"))%string.
Proof. by vm_compute. Qed.

Example int_of_texts :
  Py.int " 12 " = Some 12%Z /\ Py.int "-0_1" = Some (-1)%Z
  /\ Py.int "0" = Some 0%Z /\ Py.int "" = None /\ Py.int "true" = None
  /\ Py.int "1__2" = None /\ Py.int "+" = None
  /\ Py.int (String "028" "1") = None /\ Py.int (String "009" "1") = Some 1%Z.
Proof. by vm_compute. Qed.

(** A reboot request: two turns of the loop, two publications, the
    teardown, then the one call of the hardware. *)
Example reboot_request_run :
  let r := main tici reboot_request_outside 5 (boot used_store ∅) in
  r.1 = Ok tt
  /\ count is_update (trace r.2) = 2
  /\ count is_send (trace r.2) = 2
  /\ params r.2 !! "LastManagerExitReason" = Some "DoReboot"
  /\ drop (List.length (trace r.2) - 9) (trace r.2)
     = teardown_calls tici
       ++ [EvLog LInfo "everything is dead"; EvLog LWarning "reboot";
           EvHardware Reboot].
Proof. by vm_compute. Qed.

(** SIGTERM: the exception is no [Exception], the teardown runs all the
    same, and no system action follows. *)
Example sigterm_run :
  let r := main tici sigterm_outside 5 (boot used_store ∅) in
  r.1 = Raise (SystemExit 1)
  /\ hardware_calls (trace r.2) = []
  /\ drop (List.length (trace r.2) - 7) (trace r.2)
     = teardown_calls tici ++ [EvLog LInfo "everything is dead"].
Proof. by vm_compute. Qed.

(** C3, the claim as stated fails: with DoUninstall and DoReboot set
    together the loop returns, the first flag found set is DoUninstall,
    and the reason left in the store is DoReboot. *)
Lemma first_flag_set_is_not_the_reason_left :
  let r := main tici two_flags_outside 3 (boot used_store ∅) in
  r.1 = Ok tt
  /\ count is_update (trace r.2) = 1
  /\ head (flags_set (params r.2)) = Some "DoUninstall"
  /\ params r.2 !! "LastManagerExitReason" = Some "DoReboot".
Proof. by vm_compute. Qed.


(** C2, on a run: the operator sets two flags, the loop returns, and
    the teardown is what follows. *)
Lemma teardown_follows_the_loop :
  let w := boot used_store ∅ in
  (manager_thread tici two_flags_outside 3 w).1 <> Pending
  /\ exists w2,
       (supervise tici two_flags_outside 3 w).2
       = (manager_cleanup tici two_flags_outside w2).2.
Proof.
  intros w.
  assert ((manager_thread tici two_flags_outside 3 w).1 <> Pending) as H
    by (vm_compute; discriminate).
  split; [exact H|].
  destruct (teardown_two_phase_on_every_exit tici two_flags_outside 3 w H)
    as (th & w2 & _ & _ & E & _).
  by exists w2.
Defined.

(** C3 (as amended), on a run: the loop returns with both flags set and
    the reason it leaves is the last of them. *)
Lemma exit_reason_with_two_flags :
  let r := control_loop tici two_flags_outside [] 3 (boot ∅ ∅) in
  r = (Ok tt, r.2)
  /\ flags_set (params r.2) <> []
  /\ params r.2 !! "LastManagerExitReason" = last (flags_set (params r.2))
  /\ exists t0,
       trace r.2 = t0 ++ (shutting_down_msg <$> flags_set (params r.2)).
Proof.
  intros r.
  assert (r = (Ok tt, r.2)) as H by (vm_compute; reflexivity).
  split; [exact H|].
  destruct (exit_reason_is_last_flag_set tici two_flags_outside [] 3
              (boot ∅ ∅)) as [Hexit _].
  exact (Hexit r.2 H).
Defined.

(** C1, on a run: the operator asks for a reboot; the loop under its
    handlers returns and the reboot is what [main] calls. *)
Lemma reboot_is_dispatched_after_the_loop :
  let w := boot used_store ∅ in
  let wc :=
    ((manager_init tici ;; start_ui tici reboot_request_outside ;;
      manager_prepare tici reboot_request_outside ;; tell EvSignal ;;
      supervise tici reboot_request_outside 5) w).2 in
  environ w !! "PREPAREONLY" = None
  /\ selected_action (params wc) = Some Reboot
  /\ hardware_calls (trace (main tici reboot_request_outside 5 w).2)
     = [Reboot].
Proof.
  intros w wc.
  assert (environ w !! "PREPAREONLY" = None) as Hf
    by (vm_compute; reflexivity).
  assert ((manager_init tici ;; start_ui tici reboot_request_outside ;;
           manager_prepare tici reboot_request_outside ;; tell EvSignal ;;
           supervise tici reboot_request_outside 5) w = (Ok tt, wc)) as Hrun
    by (vm_compute; reflexivity).
  assert (selected_action (params wc) = Some Reboot) as Hsel
    by (vm_compute; reflexivity).
  split; [exact Hf|]. split; [exact Hsel|].
  destruct (one_action_after_teardown tici reboot_request_outside 5
              used_store ∅) as (_ & _ & Hd & _).
  destruct (Hd wc Hf Hrun) as (_ & _ & Hh).
  rewrite Hsel in Hh. exact Hh.
Defined.

(** C4, on a run: the language the user chose is kept, and the unset
    MaxTimeOffroad gets the default of the table. *)
Lemma language_kept_and_offroad_time_defaulted :
  let w := boot used_store ∅ in
  (manager_init tici w).1 = Ok tt
  /\ params (manager_init tici w).2 !! "LanguageSetting" = Some "main_fr"
  /\ params (manager_init tici w).2 !! "MaxTimeOffroad" = Some "9".
Proof.
  intros w.
  assert ((manager_init tici w).1 = Ok tt) as H by (vm_compute; reflexivity).
  assert (("LanguageSetting", "main_en") ∈ default_params tici) as Hl
    by (apply (bool_decide_unpack _); vm_compute; exact I).
  assert (("MaxTimeOffroad", "9") ∈ default_params tici) as Hm
    by (apply (bool_decide_unpack _); vm_compute; exact I).
  split; [exact H|]. split.
  - destruct (defaults_fill_only_unset_keys tici w _ _ H Hl) as (_ & Hset & _).
    apply Hset. vm_compute. reflexivity.
  - destruct (defaults_fill_only_unset_keys tici w _ _ H Hm) as (Hunset & _).
    apply Hunset. vm_compute. reflexivity.
Defined.


(** * Further properties of the supervisor *)

Section Further.

Context (host : Host) (out : Outside).

(** ** Start-up *)

(** X1.  When [manager_init] returns, the seven identity keys hold the
    values of this build, whatever the store held. *)
Theorem version_identity_overwritten (w : World) :
  (manager_init host w).1 = Ok tt ->
  let p' := params (manager_init host w).2 in
  p' !! "Version" = Some (get_version host)
  /\ p' !! "TermsVersion" = Some (terms_version host)
  /\ p' !! "TrainingVersion" = Some (training_version host)
  /\ p' !! "GitCommit" = Some (get_commit host)
  /\ p' !! "GitBranch" = Some (get_short_branch host)
  /\ p' !! "GitRemote" = Some (get_origin host)
  /\ p' !! "IsTestedBranch"
     = Some (if is_tested_branch host then "1" else "0").
Proof.
  intros Hok p'. subst p'.
  destruct (manager_init_cases host w)
    as [(text & _ & _ & E)|[(_ & _ & E)|[(_ & _ & _ & E)|(_ & _ & _ & E)]]];
    rewrite E in Hok |- *; try discriminate Hok.
  cbn [snd params]. unfold store_version.
  repeat split;
    repeat (rewrite lookup_insert_ne by done); by rewrite lookup_insert_eq.
Qed.

(** ** The path of [main] to the loop *)

Lemma bind_unit (m : M unit) w : bind m (fun _ => ret tt) w = m w.
Proof. unfold bind, ret. by destruct (m w) as [[[]|e|] w1]. Qed.

Lemma emits_any {A} (Q : event -> Prop) (m : M A) :
  emits Q m -> emits (fun _ => True) m.
Proof. apply emits_weaken. done. Qed.

Lemma system_action_emits : emits (fun _ => True) (system_action out).
Proof.
  intros w. exists (action_calls (params w)).
  split; [apply system_action_trace|]. by apply Forall_forall.
Qed.

(** X6.  With PREPAREONLY in the environment, [main] is start-up
    followed by the preparation and nothing else, whatever the fuel:
    the front end is not started, the loop is not entered, nothing is
    stopped and no system action is called. *)
Theorem prepare_only_run (fuel : nat) (w : World) :
  is_Some (environ w !! "PREPAREONLY") ->
  main host out fuel w = (manager_init host ;; manager_prepare host out) w
  /\ (main host out fuel w).1 <> Pending
  /\ exists t,
       trace (main host out fuel w).2 = trace w ++ t
       /\ Forall (fun ev => is_startup ev = true \/ exists p, ev = EvPrepare p)
                 t.
Proof.
  intros [flag Hflag].
  assert (main host out fuel w
          = (manager_init host ;; manager_prepare host out) w) as Hmain.
  { unfold main. rewrite bind_getenv, Hflag. cbv zeta iota.
    unfold bind at 1 4. destruct (manager_init host w) as [[[]|e|] w0]; try done.
    rewrite bind_ret. apply bind_unit. }
  split; [done|]. rewrite Hmain. split.
  - unfold bind.
    destruct (manager_init_cases host w)
      as [(text & _ & _ & E)|[(_ & _ & E)|[(_ & _ & _ & E)|(_ & _ & _ & E)]]];
      rewrite E; try done.
    match goal with
    | |- (manager_prepare host out ?w0).1 <> _ =>
        pose proof (for_each_call out EvPrepare (managed_processes host) w0)
          as (n & _ & _ & Hr)
    end.
    unfold manager_prepare. intros HP. by rewrite HP in Hr.
  - apply emits_bind.
    + eapply emits_weaken; [|apply manager_init_emits]. by left.
    + intros _. eapply emits_weaken; [|apply manager_prepare_emits]. by right.
Qed.

(** X7.  Without PREPAREONLY, the first call [main] makes after
    start-up is the start of ui, before any preparation; when the
    registry has no ui, [main] raises KeyError there, and when the start
    raises, [main] ends with that exception: in both cases nothing is
    prepared. *)
Theorem ui_started_before_preparation (fuel : nat) (w : World) :
  environ w !! "PREPAREONLY" = None ->
  (manager_init host w).1 = Ok tt ->
  let w0 := (manager_init host w).2 in
  ("ui" ∉ managed_processes host ->
   main host out fuel w = (Raise (KeyError "ui"), w0))
  /\ ("ui" ∈ managed_processes host ->
      (exists t, trace (main host out fuel w).2
                 = trace w0 ++ EvStart "ui" :: t)
      /\ forall e, raises out (trace w0 ++ [EvStart "ui"]) = Some e ->
           main host out fuel w = (Raise e, called out (EvStart "ui") w0)).
Proof.
  intros Hflag Hok w0. subst w0.
  destruct (manager_init host w) as [r w0] eqn:E. cbn [fst snd] in *. subst r.
  assert (main host out fuel w
          = (start_ui host out ;;
             manager_prepare host out ;;
             tell EvSignal ;; supervise host out fuel ;; system_action out)
              w0) as ->.
  { unfold main. rewrite bind_getenv, Hflag. cbv zeta iota.
    by rewrite (bind_run _ _ _ _ _ E). }
  unfold start_ui. split; intros Hui.
  - by rewrite bool_decide_eq_false_2.
  - rewrite bool_decide_eq_true_2 by done. rewrite bind_call. split.
    + destruct (raises out (trace w0 ++ [EvStart "ui"])) as [e|].
      { exists []. done. }
      assert (emits (fun _ => True)
                (manager_prepare host out ;;
                 tell EvSignal ;; supervise host out fuel ;;
                 system_action out)) as Hrest.
      { apply emits_bind; [eapply emits_any, manager_prepare_emits|].
        intros _. apply emits_bind; [by apply emits_tell|].
        intros _. apply emits_bind; [eapply emits_any, supervise_quiet|].
        intros _. apply system_action_emits. }
      destruct (Hrest (called out (EvStart "ui") w0)) as (t & Et & _).
      exists t. rewrite Et. cbn [trace called]. by rewrite <- app_assoc.
    + by intros e ->.
Qed.

(** ** What a computation leaves alone *)

(** [preserves R m]: running [m] takes every world to one related to
    it by [R]. *)
Definition preserves (R : World -> World -> Prop) {A} (m : M A) : Prop :=
  forall w, R w (m w).2.

Section Preserves.

Context (R : World -> World -> Prop).
Context (R_refl : forall w, R w w).
Context (R_trans : forall w1 w2 w3, R w1 w2 -> R w2 w3 -> R w1 w3).

Lemma preserves_ret {A} (a : A) : preserves R (ret a).
Proof. intros w. apply R_refl. Qed.

Lemma preserves_raise {A} e : preserves R (@raise A e).
Proof. intros w. apply R_refl. Qed.

Lemma preserves_bind {A B} (m : M A) (k : A -> M B) :
  preserves R m -> (forall a, preserves R (k a)) -> preserves R (bind m k).
Proof.
  intros Hm Hk w. unfold bind. specialize (Hm w).
  destruct (m w) as [[a|e|] w1]; cbn [snd] in *; [|done..].
  eapply R_trans; [exact Hm|apply Hk].
Qed.

Lemma preserves_for_each {A} (l : list A) body :
  (forall x, preserves R (body x)) -> preserves R (for_each l body).
Proof.
  intros H. induction l as [|x l IH]; cbn [for_each].
  - apply preserves_ret.
  - apply preserves_bind; [apply H|done].
Qed.

Lemma preserves_try_except_finally body handler final :
  preserves R body -> preserves R handler -> preserves R final ->
  preserves R (try_except_finally body handler final).
Proof.
  intros Hb Hh Hf w. unfold try_except_finally.
  specialize (Hb w). destruct (body w) as [r1 w1]. cbn [snd] in Hb.
  assert (R w (except_Exception handler r1 w1).2) as H2.
  { unfold except_Exception. destruct r1 as [a|e|]; [done| |done].
    destruct (is_Exception e); [|done].
    eapply R_trans; [exact Hb|apply Hh]. }
  destruct (except_Exception handler r1 w1) as [r2 w2]. cbn [snd] in H2.
  unfold finally. specialize (Hf w2).
  destruct r2 as [a|e|]; [| |done];
    destruct (final w2) as [[?|?|] w3]; cbn [snd] in *;
    eapply R_trans; eauto.
Qed.

End Preserves.

(** The store but for the key [skip], and the environment. *)
Definition same_but (skip : string) (w w' : World) : Prop :=
  (forall k, k <> skip -> params w' !! k = params w !! k)
  /\ environ w' = environ w.

Lemma same_but_refl skip w : same_but skip w w.
Proof. by split. Qed.

Lemma same_but_trans skip w1 w2 w3 :
  same_but skip w1 w2 -> same_but skip w2 w3 -> same_but skip w1 w3.
Proof.
  intros [H1 E1] [H2 E2]. split; [|congruence].
  intros k Hk. by rewrite H2, H1.
Qed.

Lemma keeps_ret skip {A} (a : A) : preserves (same_but skip) (ret a).
Proof. apply preserves_ret, same_but_refl. Qed.

Lemma keeps_bind skip {A B} (m : M A) (k : A -> M B) :
  preserves (same_but skip) m ->
  (forall a, preserves (same_but skip) (k a)) ->
  preserves (same_but skip) (bind m k).
Proof. apply preserves_bind, same_but_trans. Qed.

Lemma keeps_for_each skip {A} (l : list A) body :
  (forall x, preserves (same_but skip) (body x)) ->
  preserves (same_but skip) (for_each l body).
Proof.
  apply preserves_for_each; [apply same_but_refl|apply same_but_trans].
Qed.

Lemma keeps_try_except_finally skip body handler final :
  preserves (same_but skip) body -> preserves (same_but skip) handler ->
  preserves (same_but skip) final ->
  preserves (same_but skip) (try_except_finally body handler final).
Proof. apply preserves_try_except_finally, same_but_trans. Qed.

Lemma keeps_tell skip ev : preserves (same_but skip) (tell ev).
Proof. intros w. by split. Qed.

Lemma keeps_get_bool skip k : preserves (same_but skip) (Params.get_bool k).
Proof. intros w. by split. Qed.

Lemma keeps_history skip : preserves (same_but skip) history.
Proof. intros w. by split. Qed.

Ltac keep_step :=
  first
    [ apply keeps_bind; [|intros ?]
    | apply keeps_for_each; intros ?
    | apply keeps_try_except_finally
    | apply keeps_ret
    | apply keeps_tell
    | apply keeps_get_bool
    | apply keeps_history
    | match goal with
      | |- preserves _ (if ?b then _ else _) => destruct b
      end ].

Section NobodyElseWrites.

Hypothesis nobody_writes : forall t p, writes out t p = p.

Lemma keeps_call skip ev : preserves (same_but skip) (call out ev).
Proof.
  intros w. unfold call.
  destruct (raises out _); cbn [snd]; split; cbn [params environ];
    by rewrite ?nobody_writes.
Qed.

Lemma keeps_check_flags l b :
  preserves (same_but "LastManagerExitReason") (check_flags l b).
Proof.
  revert b. induction l as [|x l IH]; intros b; cbn [check_flags].
  - apply keeps_ret.
  - apply keeps_bind; [apply keeps_get_bool|].
    intros []; [|apply IH].
    apply keeps_bind.
    + intros w. split; [|done]. intros k Hk. cbn.
      by rewrite lookup_insert_ne.
    + intros _. apply keeps_bind; [apply keeps_tell|]. intros _. apply IH.
Qed.

Lemma keeps_iteration ignore :
  preserves (same_but "LastManagerExitReason") (iteration host out ignore).
Proof.
  unfold iteration.
  repeat first [ apply keeps_call | apply keeps_tell | apply keeps_history
               | apply keeps_check_flags | keep_step ].
Qed.

Lemma keeps_control_loop ignore fuel :
  preserves (same_but "LastManagerExitReason")
    (control_loop host out ignore fuel).
Proof.
  induction fuel as [|fuel IH]; cbn [control_loop].
  - intros w. apply same_but_refl.
  - apply keeps_bind; [apply keeps_iteration|].
    intros []; [apply keeps_ret|apply IH].
Qed.

Lemma keeps_manager_thread fuel :
  preserves (same_but "LastManagerExitReason")
    (manager_thread host out fuel).
Proof.
  intros w. rewrite manager_thread_unfold.
  match goal with
  | |- same_but _ _ (?m ?w1).2 =>
      assert (preserves (same_but "LastManagerExitReason") m) as Hm
  end.
  { repeat first [ apply keeps_call | apply keeps_control_loop | keep_step ]. }
  destruct (Hm (log_event (EvLogEnviron (environ w))
                  (log_event (EvLog LInfo "manager start")
                     (log_event (EvBind "manager") w)))) as [Hp He].
  split; [exact Hp|exact He].
Qed.

Lemma keeps_manager_cleanup skip :
  preserves (same_but skip) (manager_cleanup host out).
Proof.
  unfold manager_cleanup.
  repeat first [ apply keeps_call | apply keeps_tell | keep_step ].
Qed.

Lemma keeps_system_action skip :
  preserves (same_but skip) (system_action out).
Proof.
  unfold system_action.
  repeat first [ apply keeps_call | apply keeps_tell | apply keeps_get_bool
               | keep_step ].
Qed.

(** X8.  When no other process writes to the store, the supervised loop
    and the system action together change nothing in the store but
    LastManagerExitReason, and nothing in the environment: the loop, its
    handlers, the teardown and the dispatch read the flags and never
    clear or set them. *)
Theorem run_writes_only_the_exit_reason (fuel : nat) (w : World) :
  let w' := ((supervise host out fuel ;; system_action out) w).2 in
  (forall k, k <> "LastManagerExitReason" -> params w' !! k = params w !! k)
  /\ environ w' = environ w.
Proof.
  intros w'. subst w'.
  assert (preserves (same_but "LastManagerExitReason")
            (supervise host out fuel ;; system_action out)) as H.
  { unfold supervise.
    repeat first [ apply keeps_call | apply keeps_manager_thread
                 | apply keeps_manager_cleanup | apply keeps_system_action
                 | keep_step ]. }
  apply H.
Qed.

End NobodyElseWrites.

(** ** Turns of the loop *)

(** The store in which a turn that no call cut short checks the flags:
    what other processes wrote during its three calls. *)
Definition turn_store (ignore : list string) (w : World)
  : gmap string string :=
  let t := trace w in
  let ensure := EvEnsureRunning (started out (t ++ [EvUpdate])) ignore in
  writes out (t ++ iteration_calls host out ignore t)
    (writes out (t ++ [EvUpdate; ensure])
       (writes out (t ++ [EvUpdate]) (params w))).

Lemma iteration_complete ignore w :
  (forall t, raises out t = None) ->
  iteration host out ignore w
  = check_flags shutdown_params false
      {| params := turn_store ignore w; environ := environ w;
         trace := trace w ++ iteration_calls host out ignore (trace w) |}.
Proof.
  intros Hcalm. unfold iteration, turn_store.
  rewrite bind_call, Hcalm, bind_history, bind_call, Hcalm.
  rewrite bind_history, !bind_tell, bind_history, bind_call, Hcalm.
  unfold called, log_event, iteration_calls, snapshot.
  cbn [trace params environ]. rewrite <- !app_assoc. cbn [app].
  reflexivity.
Qed.

(** X9.  While no call raises and no flag is set, neither at the start
    nor by what other processes write, the loop does not return: it is
    still running after any number of turns. *)
Theorem loop_runs_while_no_flag_is_set
    (ignore : list string) (fuel : nat) (w : World) :
  (forall t, raises out t = None) ->
  (forall t p, flags_set p = [] -> flags_set (writes out t p) = []) ->
  flags_set (params w) = [] ->
  (control_loop host out ignore fuel w).1 = Pending.
Proof.
  intros Hcalm Hwrites. revert w.
  induction fuel as [|fuel IH]; intros w Hw; [done|].
  cbn [control_loop]. unfold bind.
  rewrite iteration_complete by done.
  rewrite check_flags_run by apply exit_reason_not_a_flag.
  cbn [params trace environ].
  assert (flags_set (turn_store ignore w) = []) as Hts.
  { unfold turn_store. cbv zeta. by do 3 apply Hwrites. }
  unfold flags_set in Hts. rewrite Hts. cbn [last].
  apply IH. cbn [params]. exact Hts.
Qed.

(** X10.  When no call raises and a flag is set in the store a turn
    checks, the loop returns in that very turn: one update, one
    orchestration, one publication, and the warnings of the flags. *)
Theorem request_ends_the_loop_in_that_turn
    (ignore : list string) (fuel : nat) (w : World) :
  (forall t, raises out t = None) ->
  flags_set (turn_store ignore w) <> [] ->
  (control_loop host out ignore (S fuel) w).1 = Ok tt
  /\ trace (control_loop host out ignore (S fuel) w).2
     = trace w ++ iteration_calls host out ignore (trace w)
       ++ (shutting_down_msg <$> flags_set (turn_store ignore w)).
Proof.
  intros Hcalm Hflag. cbn [control_loop]. unfold bind.
  rewrite iteration_complete by done.
  rewrite check_flags_run by apply exit_reason_not_a_flag.
  cbn [params trace environ]. fold (flags_set (turn_store ignore w)).
  destruct (flags_set (turn_store ignore w)) as [|x l]; [done|].
  cbn [ret fst snd trace]. by rewrite <- app_assoc.
Qed.

(** ** The exit reason and the action *)

(** The flag that asks for an action. *)
Definition flag_of (a : action) : string :=
  match a with
  | Uninstall => "DoUninstall"
  | Reboot => "DoReboot"
  | Shutdown => "DoShutdown"
  end.

Lemma selected_action_insert p x :
  selected_action (<["LastManagerExitReason" := x]> p) = selected_action p.
Proof.
  unfold selected_action, action_flags. cbn [List.find fst snd].
  by rewrite !bool_value_insert_ne.
Qed.

(** X11.  The check of the loop and the dispatch of [main] read the
    same three flags in different orders.  When the dispatch follows the
    check on an unchanged store and calls an action, the reason the
    check left names the flag of that action unless DoUninstall is set
    together with another flag: then uninstall is called and the reason
    names the other flag. *)
Theorem exit_reason_names_the_action (w : World) (a : action) :
  let w1 := (check_flags shutdown_params false w).2 in
  trace (system_action out w1).2
  = trace w1 ++ [EvLog LWarning (action_name a); EvHardware a] ->
  params w1 !! "LastManagerExitReason" = Some (flag_of a)
  <-> ~ (Params.bool_value (params w) "DoUninstall" = true
         /\ (Params.bool_value (params w) "DoShutdown" = true
             \/ Params.bool_value (params w) "DoReboot" = true)).
Proof.
  intros w1 Ht. subst w1.
  rewrite check_flags_run in Ht |- * by apply exit_reason_not_a_flag.
  cbn [snd params trace] in Ht |- *.
  rewrite system_action_trace in Ht. cbn [params trace] in Ht.
  apply app_inv_head in Ht.
  assert (selected_action (params w) = Some a) as Hsel.
  { unfold action_calls in Ht.
    destruct (last _) as [x|] in Ht;
      rewrite ?selected_action_insert in Ht;
      destruct (selected_action (params w)) as [a0|];
      by (discriminate Ht || (injection Ht as _ ->)). }
  clear Ht. revert Hsel.
  unfold selected_action, action_flags, shutdown_params.
  cbn [List.find List.filter fst snd].
  destruct (Params.bool_value (params w) "DoUninstall");
    destruct (Params.bool_value (params w) "DoShutdown");
    destruct (Params.bool_value (params w) "DoReboot");
    cbn [last fmap option_fmap option_map snd];
    intros [= <-]; rewrite ?lookup_insert_eq; cbn [flag_of];
    (split;
     [ intros Heq [H1 [H2|H2]];
       (discriminate Heq || discriminate H1 || discriminate H2)
     | intros Hn; (reflexivity || (exfalso; apply Hn; auto)) ]).
Qed.

(** ** Leaving the loop by an exception *)

(** Calls of the kind [P] never raise. *)
Definition never_raises (P : event -> Prop) : Prop :=
  forall t ev, P ev -> raises out (t ++ [ev]) = None.

Definition is_stop (ev : event) : Prop :=
  match ev with EvStop _ _ => True | _ => False end.

Definition is_report (ev : event) : Prop :=
  ev = EvPrintExc \/ ev = EvCaptureException.

Lemma for_each_never_raises {A} (P : event -> Prop) (f : A -> event) l w :
  never_raises P -> (forall x, P (f x)) ->
  exists w', for_each l (fun x => call out (f x)) w = (Ok tt, w')
             /\ trace w' = trace w ++ (f <$> l).
Proof.
  intros Hnr HP. revert w. induction l as [|x l IH]; intros w.
  - exists w. by rewrite app_nil_r.
  - cbn [for_each]. rewrite bind_call, Hnr by done.
    destruct (IH (called out (f x) w)) as (w' & E & Et).
    exists w'. split; [done|]. rewrite Et. cbn [trace called].
    by rewrite <- app_assoc.
Qed.

Lemma manager_cleanup_completes w :
  never_raises is_stop ->
  exists w', manager_cleanup host out w = (Ok tt, w')
             /\ trace w'
                = trace w ++ teardown_calls host
                  ++ [EvLog LInfo "everything is dead"].
Proof.
  intros Hnr. unfold manager_cleanup, teardown_calls.
  destruct (for_each_never_raises is_stop (fun p => EvStop p false)
              (managed_processes host) w Hnr) as (w1 & E1 & Et1); [done|].
  rewrite (bind_run _ _ _ _ _ E1).
  destruct (for_each_never_raises is_stop (fun p => EvStop p true)
              (managed_processes host) w1 Hnr) as (w2 & E2 & Et2); [done|].
  rewrite (bind_run _ _ _ _ _ E2).
  eexists. split; [reflexivity|].
  cbn [trace log_event]. by rewrite Et2, Et1, <- !app_assoc.
Qed.

Lemma call_never_raises (P : event -> Prop) ev w :
  never_raises P -> P ev -> call out ev w = (Ok tt, called out ev w).
Proof. intros Hnr HP. unfold call, called. by rewrite Hnr. Qed.

Lemma report_completes w :
  never_raises is_report ->
  (call out EvPrintExc ;; call out EvCaptureException) w
  = (Ok tt, called out EvCaptureException (called out EvPrintExc w)).
Proof.
  intros Hrep.
  rewrite (bind_run _ _ _ _ _ (call_never_raises is_report _ _ Hrep
                                 (or_introl eq_refl))).
  apply (call_never_raises is_report); [done|by right].
Qed.

(** X12.  An [Exception] that leaves the loop is swallowed: when the
    report and the stops do not raise, the traceback is printed, the
    exception is sent to sentry, the teardown runs, and the supervised
    loop returns, so that [main] goes on to the system action. *)
Theorem loop_exception_is_reported_and_swallowed
    (fuel : nat) (w : World) (e : exn) :
  (manager_thread host out fuel w).1 = Raise e ->
  is_Exception e = true ->
  never_raises is_report -> never_raises is_stop ->
  exists w',
    supervise host out fuel w = (Ok tt, w')
    /\ trace w'
       = trace (manager_thread host out fuel w).2
         ++ [EvPrintExc; EvCaptureException] ++ teardown_calls host
         ++ [EvLog LInfo "everything is dead"]
    /\ (supervise host out fuel ;; system_action out) w
       = system_action out w'.
Proof.
  intros Hr He Hrep Hstop.
  destruct (manager_thread host out fuel w) as [r w1] eqn:Eth.
  cbn [fst snd] in *. subst r.
  destruct (manager_cleanup_completes
              (called out EvCaptureException (called out EvPrintExc w1))
              Hstop) as (w' & E & Et).
  assert (supervise host out fuel w = (Ok tt, w')) as Hs.
  { unfold supervise, try_except_finally. rewrite Eth.
    unfold except_Exception. rewrite He, report_completes by done.
    unfold finally. by rewrite E. }
  exists w'. split; [done|]. split.
  - rewrite Et. cbn [trace called]. by rewrite <- !app_assoc.
  - by rewrite (bind_run _ _ _ _ _ Hs).
Qed.

(** X13.  An exception that is no [Exception] (SystemExit, raised by
    the SIGTERM handler) is not reported: when the stops do not raise,
    the teardown runs right after the loop, the exception goes on, and
    no system action is called. *)
Theorem loop_exit_by_signal_skips_the_action
    (fuel : nat) (w : World) (e : exn) :
  (manager_thread host out fuel w).1 = Raise e ->
  is_Exception e = false ->
  never_raises is_stop ->
  exists w',
    (supervise host out fuel ;; system_action out) w = (Raise e, w')
    /\ trace w'
       = trace (manager_thread host out fuel w).2
         ++ teardown_calls host ++ [EvLog LInfo "everything is dead"].
Proof.
  intros Hr He Hstop.
  destruct (manager_thread host out fuel w) as [r w1] eqn:Eth.
  cbn [fst snd] in *. subst r.
  destruct (manager_cleanup_completes w1 Hstop) as (w' & E & Et).
  assert (supervise host out fuel w = (Raise e, w')) as Hs.
  { unfold supervise, try_except_finally. rewrite Eth.
    unfold except_Exception. rewrite He. unfold finally. by rewrite E. }
  exists w'. split; [|done]. by rewrite (bind_run _ _ _ _ _ Hs).
Qed.

(** ** The order of the calls of [manager_thread] *)




(** ** The names of the exclusion list *)

Fixpoint has_char (c : ascii) (s : string) : bool :=
  match s with
  | EmptyString => false
  | String a s' => Ascii.eqb a c || has_char c s'
  end.

Lemma split_pieces_without_separator sep s :
  Forall (fun x => has_char sep x = false) (Py.split sep s).
Proof.
  induction s as [|c s IH]; cbn [Py.split]; [by repeat constructor|].
  destruct (Ascii.eqb c sep) eqn:Ec; [by constructor|].
  destruct (Py.split sep s) as [|x xs].
  - repeat constructor. cbn. by rewrite Ec.
  - apply Forall_cons in IH as [Hx Hxs]. constructor; [|done].
    cbn. by rewrite Ec.
Qed.

(** X15.  No name of the exclusion list is empty and none holds a
    comma: the empty pieces of BLOCK (an empty BLOCK, a doubled or a
    final comma) are dropped.  Without BLOCK, or with an empty one, the
    list holds none but the three names of lines 180 and 182. *)
Theorem exclusion_names_are_well_formed (w : World) :
  Forall (fun x => x <> "" /\ has_char "," x = false) (exclusion host w)
  /\ (environ w !! "BLOCK" = None \/ environ w !! "BLOCK" = Some "" ->
      forall x, x ∈ exclusion host w ->
                x ∈ ["manage_athenad"; "uploader"; "pandad"]).
Proof.
  unfold exclusion, compute_ignore. cbv zeta. split.
  - apply Forall_app. split.
    + case_bool_decide; destruct (environ w !! "NOBOARD");
        repeat constructor; done.
    + apply Forall_forall. intros x Hx.
      apply list_elem_of_In, List.filter_In in Hx as [Hx Hlen].
      split; [by intros ->|].
      pose proof (split_pieces_without_separator ","
                    (default "" (environ w !! "BLOCK"))) as H.
      rewrite Forall_forall in H. by apply H, list_elem_of_In.
  - intros HB x Hx.
    assert (List.filter (fun x0 => (0 <? String.length x0)%nat)
              (Py.split "," (default "" (environ w !! "BLOCK"))) = []) as Hnil
      by (by destruct HB as [-> | ->]).
    rewrite Hnil, app_nil_r in Hx.
    case_bool_decide; destruct (environ w !! "NOBOARD");
      cbn [app] in Hx;
      repeat match goal with
             | H : _ ∈ _ :: _ |- _ => apply elem_of_cons in H as [->|H]
             | H : _ ∈ [] |- _ => by apply elem_of_nil in H
             end;
      apply (bool_decide_unpack _); by vm_compute.
Qed.

End Further.

(** * The entry point *)

(** What the block under [if __name__ == "__main__"] does besides
    [main]: its own calls, in order.  The stop of ui that it attempts
    between [RException] and [RTextWindow] is a call to a process
    handle and goes to the trace. *)
Inductive report : Type :=
| RUnblockStdout
| RAddFileHandler
| RException (msg : string)
| RTextWindow (text : string)
| RWaitForExit.

Section EntryPoint.

Context (host : Host) (out : Outside).

(** [traceback.format_exc(-3)] of the exception being handled. *)
Context (format_exc : exn -> string).

(** The default of [block] in the [stop] of a process handle. *)
Context (block_default : bool).

(** [managed_processes['ui'].stop()]: the stop with its defaults. *)
Definition stop_ui : M unit :=
  if bool_decide ("ui" ∈ managed_processes host)
  then call out (EvStop "ui" block_default)
  else raise (KeyError "ui").

Definition newline : string := String "010"%char "".

Definition failure_text (e : exn) : string :=
  "Manager failed to start" ++ newline ++ newline ++ format_exc e.

(** Lines 255-278. *)
Definition main_block (fuel : nat) (w : World)
  : result unit * World * list report :=
  match main host out fuel w with
  | (Ok _, w1) => (Raise (SystemExit 0), w1, [RUnblockStdout])
  | (Pending, w1) => (Pending, w1, [RUnblockStdout])
  | (Raise e, w1) =>
      if is_Exception e
      then
        match try_except_finally stop_ui (ret tt) (ret tt) w1 with
        | (Ok _, w2) =>
            (Raise e, w2,
             [ RUnblockStdout; RAddFileHandler;
               RException "Manager failed to start";
               RTextWindow (failure_text e); RWaitForExit ])
        | (r, w2) =>
            (r, w2,
             [ RUnblockStdout; RAddFileHandler;
               RException "Manager failed to start" ])
        end
      else (Raise e, w1, [RUnblockStdout])
  end.

Lemma init_raises_an_Exception w e :
  (manager_init host w).1 = Raise e -> is_Exception e = true.
Proof.
  intros Hr.
  destruct (manager_init_cases host w)
    as [(text & _ & _ & E)|[(_ & _ & E)|[(_ & _ & _ & E)|(_ & _ & _ & E)]]];
    rewrite E in Hr; cbn [fst] in Hr; by (discriminate Hr || injection Hr as <-).
Qed.

(** The stop of ui under [except Exception: pass]: an [Exception] of the
    stop, or of the lookup of ui, is dropped. *)
Lemma guarded_stop_ui w :
  (forall e, raises out (trace w ++ [EvStop "ui" block_default]) = Some e ->
             is_Exception e = true) ->
  exists w',
    try_except_finally stop_ui (ret tt) (ret tt) w = (Ok tt, w')
    /\ trace w' = trace w
                  ++ (if bool_decide ("ui" ∈ managed_processes host)
                      then [EvStop "ui" block_default] else []).
Proof.
  intros Hstop. unfold try_except_finally, stop_ui.
  case_bool_decide.
  - unfold call.
    destruct (raises out (trace w ++ [EvStop "ui" block_default])) as [e|] eqn:Er.
    + unfold except_Exception. rewrite (Hstop e eq_refl).
      eexists. split; [reflexivity|done].
    + eexists. split; [reflexivity|done].
  - eexists. split; [reflexivity|]. cbn. by rewrite app_nil_r.
Qed.

Lemma guarded_stop_ui_returns w :
  (try_except_finally stop_ui (ret tt) (ret tt) w).1 <> Pending.
Proof.
  unfold try_except_finally, stop_ui. case_bool_decide.
  - unfold call. destruct (raises out _) as [e|]; [|done].
    unfold except_Exception. by destruct (is_Exception e).
  - done.
Qed.

(** X16.  A failure of start-up reaches the operator: when
    [manager_init] raises, the block attempts to stop ui (an
    [Exception] of that stop is dropped), shows the text window with the
    traceback under the line "Manager failed to start", waits for its
    dismissal, and raises the exception of [manager_init] again. *)
Theorem startup_failure_is_shown_and_raised_again
    (fuel : nat) (w : World) (e : exn) :
  (manager_init host w).1 = Raise e ->
  (forall e',
      raises out (trace (manager_init host w).2 ++ [EvStop "ui" block_default])
      = Some e' -> is_Exception e' = true) ->
  (main_block fuel w).1.1 = Raise e
  /\ (main_block fuel w).2
     = [ RUnblockStdout; RAddFileHandler;
         RException "Manager failed to start";
         RTextWindow (failure_text e); RWaitForExit ]
  /\ trace (main_block fuel w).1.2
     = trace (manager_init host w).2
       ++ (if bool_decide ("ui" ∈ managed_processes host)
           then [EvStop "ui" block_default] else []).
Proof.
  intros Hr Hstop.
  pose proof (init_raises_an_Exception w e Hr) as He.
  pose proof (main_init_raises host out fuel w e Hr) as Hm.
  unfold main_block. rewrite Hm.
  destruct (manager_init host w) as [r w0]. cbn [fst snd] in Hr, Hstop |- *.
  subst r. rewrite He.
  destruct (guarded_stop_ui w0 Hstop) as (w' & E & Et). rewrite E.
  by cbn [fst snd].
Qed.

(** X17.  The block never returns: it ends in an exception (or is
    still in the loop).  When [main] returns it exits with status 0 and
    reports nothing.  The text window is shown only for an [Exception]
    of [main], with the traceback of that exception, and the block then
    raises that same exception: never after a normal return, never for
    a SystemExit. *)
Theorem main_block_outcomes (fuel : nat) (w : World) :
  (main_block fuel w).1.1 <> Ok tt
  /\ ((main host out fuel w).1 = Ok tt ->
      (main_block fuel w).1.1 = Raise (SystemExit 0)
      /\ (main_block fuel w).2 = [RUnblockStdout])
  /\ (forall text,
        RTextWindow text ∈ (main_block fuel w).2 ->
        exists e, (main host out fuel w).1 = Raise e
                  /\ is_Exception e = true
                  /\ text = failure_text e
                  /\ (main_block fuel w).1.1 = Raise e).
Proof.
  assert (forall text, RTextWindow text ∉ [RUnblockStdout]) as Hquiet.
  { intros text H. apply list_elem_of_singleton in H. discriminate H. }
  unfold main_block.
  destruct (main host out fuel w) as [[[]|e|] w1]; cbn [fst snd];
    [by split; [|split; [|intros text H; destruct (Hquiet _ H)]]|
    |by split; [|split; [|intros text H; destruct (Hquiet _ H)]]].
  destruct (is_Exception e) eqn:He;
    [|by split; [|split; [|intros text H; destruct (Hquiet _ H)]]].
  pose proof (guarded_stop_ui_returns w1) as Hnp.
  destruct (try_except_finally stop_ui (ret tt) (ret tt) w1)
    as [[[]|e'|] w2]; cbn [fst snd] in *; [| |done].
  - split; [done|]. split; [done|]. intros text H.
    exists e. split; [done|]. split; [done|]. split; [|done].
    do 3 (apply elem_of_cons in H as [H|H]; [discriminate H|]).
    apply elem_of_cons in H as [H|H]; [by injection H|].
    apply list_elem_of_singleton in H. discriminate H.
  - split; [done|]. split; [done|]. intros text H.
    do 2 (apply elem_of_cons in H as [H|H]; [discriminate H|]).
    apply list_elem_of_singleton in H. discriminate H.
Qed.

End EntryPoint.

(** * Start-up when a collaborator fails *)

(** [manager_init] above is start-up as it goes when every call it makes
    to code outside of manager.py returns.  Here any of these calls may
    raise, and the exception leaves [manager_init] at that point: the
    source has no handler but the two of lines 119-122. *)

Module Startup.

(** The calls of [manager_init] to code outside of manager.py that may
    raise, named after the line they are on.  The calls to the
    parameter store are not among them: it is modelled from the spec,
    which gives it total operations. *)
Inductive site : Type :=
| l32_set_time
| l35_subprocess_call
| l118_mkdir
| l125_get_version
| l128_get_commit
| l129_get_short_branch
| l130_get_origin
| l131_is_tested_branch
| l134_register
| l142_is_dirty
| l146_sentry_init
| l147_get_version
| l147_is_dirty
| l148_get_device_type
| l147_bind_global
| l151_remove.

Section Failing.

Context (host : Host) (out : Outside).

(** [fails s = Some what]: the call at [s] raises.  What it raises is
    an exception of the collaborator, [CollabError what], and so none
    of the three that [manager_init] raises itself; for [l118_mkdir] it
    is an [OSError] other than the two that are handled. *)
Context (fails : site -> option string).

(** A call that is recorded in the trace. *)
Definition collab (s : site) (ev : event) : M unit :=
  tell ev ;;
  match fails s with
  | Some what => raise (CollabError what)
  | None => ret tt
  end.

(** A call that only answers: its value is the one [host] has. *)
Definition answer (s : site) : M unit :=
  match fails s with
  | Some what => raise (CollabError what)
  | None => ret tt
  end.

(** Lines 117-122. *)
Definition make_shm : M unit :=
  collab l118_mkdir EvMkdirShm ;;
  match mkdir_shm host with
  | Created => ret tt
  | FileExists => ret tt
  | PermissionDenied => tell (EvPrint "WARNING: failed to make /dev/shm")
  end.

Definition manager_init : M unit :=
  collab l32_set_time EvSetTime ;;
  collab l35_subprocess_call EvBootlog ;;
  Params.clear_all (clear_on_manager_start host) ;;
  do lock <- Params.get_bool "RecordFrontLock" ;
  (if lock then Params.put_bool "RecordFront" true else ret tt) ;;
  for_each (default_params host) (fun kv =>
    do cur <- Params.get kv.1 ;
    match cur with
    | None => Params.put kv.1 kv.2
    | Some _ => ret tt
    end) ;;
  do passive <- getenv "PASSIVE" ;
  match passive with
  | Some text =>
      match int host text with
      | Some n => Params.put_bool "Passive" (Py.bool_of_int n)
      | None => raise (ValueError text)
      end
  | None => ret tt
  end ;;
  do mode <- Params.get "Passive" ;
  match mode with
  | None => raise (Exception "Passive must be set to continue")
  | Some _ => ret tt
  end ;;
  make_shm ;;
  answer l125_get_version ;;
  Params.put "Version" (get_version host) ;;
  Params.put "TermsVersion" (terms_version host) ;;
  Params.put "TrainingVersion" (training_version host) ;;
  answer l128_get_commit ;;
  Params.put "GitCommit" (get_commit host) ;;
  answer l129_get_short_branch ;;
  Params.put "GitBranch" (get_short_branch host) ;;
  answer l130_get_origin ;;
  Params.put "GitRemote" (get_origin host) ;;
  answer l131_is_tested_branch ;;
  Params.put_bool "IsTestedBranch" (is_tested_branch host) ;;
  collab l134_register EvRegister ;;
  do dongle_id <-
    (if Py.truthy (register host)
     then ret (default "" (register host))
     else do serial <- Params.get "HardwareSerial" ;
          raise (Exception
                   ("Registration failed for device " ++ Py.format serial))) ;
  setenv "DONGLE_ID" dongle_id ;;
  answer l142_is_dirty ;;
  (if is_dirty host then ret tt else setenv "CLEAN" "1") ;;
  collab l146_sentry_init EvSentryInit ;;
  answer l147_get_version ;;
  answer l147_is_dirty ;;
  answer l148_get_device_type ;;
  collab l147_bind_global
    (EvBindGlobal dongle_id (get_version host) (is_dirty host)
       (get_device_type host)) ;;
  (if error_txt_isfile host then collab l151_remove EvRemoveErrorTxt
   else ret tt).

Definition main (fuel : nat) : M unit :=
  do flag <- getenv "PREPAREONLY" ;
  let prepare_only := match flag with Some _ => true | None => false end in
  manager_init ;;
  (if prepare_only then ret tt else start_ui host out) ;;
  manager_prepare host out ;;
  if prepare_only then ret tt
  else
    tell EvSignal ;;
    supervise host out fuel ;;
    system_action out.

(** The calls before the store is touched (line 38), those from there
    to the export of the dongle id (line 140), and those after it. *)
Definition before_store : list site :=
  [l32_set_time; l35_subprocess_call].

Definition before_register : list site :=
  [ l118_mkdir; l125_get_version; l128_get_commit; l129_get_short_branch;
    l130_get_origin; l131_is_tested_branch ].

Definition after_export : list site :=
  [ l142_is_dirty; l146_sentry_init; l147_get_version; l147_is_dirty;
    l148_get_device_type; l147_bind_global ]
  ++ (if error_txt_isfile host then [l151_remove] else []).

(** All the calls at the sites [l] return. *)
Definition returns (l : list site) : Prop :=
  Forall (fun s => fails s = None) l.

(** What the first call to fail at the sites [l] raises. *)
Fixpoint first_failure (l : list site) : option string :=
  match l with
  | [] => None
  | s :: l' =>
      match fails s with
      | Some what => Some what
      | None => first_failure l'
      end
  end.

End Failing.

(** No call fails. *)
Definition calm : site -> option string := fun _ => None.

End Startup.

Section StartupFailures.

Import Startup.

Context (host : Host) (out : Outside) (fails : site -> option string).

Lemma first_failure_none l : first_failure fails l = None <-> returns fails l.
Proof.
  unfold returns.
  induction l as [|s l IH]; cbn [first_failure].
  - split; [by constructor|done].
  - rewrite Forall_cons. destruct (fails s); [|by rewrite IH; intuition].
    split; [done|]. by intros [? _].
Qed.

Lemma first_failure_some l what :
  first_failure fails l = Some what -> exists s, s ∈ l /\ fails s = Some what.
Proof.
  induction l as [|s l IH]; cbn [first_failure]; [done|].
  destruct (fails s) as [m|] eqn:Es.
  - intros [= <-]. exists s. split; [by left|done].
  - intros H. destruct (IH H) as (s' & Hin & Hs').
    exists s'. split; [by right|done].
Qed.

Lemma returns_or_fails l :
  returns fails l \/ exists what, first_failure fails l = Some what.
Proof.
  destruct (first_failure fails l) as [what|] eqn:E; [right; by eexists|].
  left. by apply first_failure_none.
Qed.

Lemma bind_collab {B} s ev (f : unit -> M B) w :
  bind (collab fails s ev) f w
  = match fails s with
    | Some what => (Raise (CollabError what), log_event ev w)
    | None => f tt (log_event ev w)
    end.
Proof. unfold collab, bind, tell, raise, ret. by destruct (fails s). Qed.

Lemma bind_answer {B} s (f : unit -> M B) w :
  bind (answer fails s) f w
  = match fails s with
    | Some what => (Raise (CollabError what), w)
    | None => f tt w
    end.
Proof. unfold answer, bind, raise, ret. by destruct (fails s). Qed.

Lemma emits_collab Q s ev : Q ev -> emits Q (collab fails s ev).
Proof.
  intros H. unfold collab. apply emits_bind; [by apply emits_tell|].
  intros _. destruct (fails s); [apply emits_raise|apply emits_ret].
Qed.

Lemma emits_answer Q s : emits Q (answer fails s).
Proof. unfold answer. destruct (fails s); [apply emits_raise|apply emits_ret]. Qed.

Lemma manager_init_emits_startup :
  emits (fun ev => is_startup ev = true) (Startup.manager_init host fails).
Proof.
  unfold Startup.manager_init, make_shm.
  repeat first
    [ apply emits_bind; [|intros ?]
    | apply emits_for_each; intros ?
    | apply emits_collab
    | apply emits_answer
    | apply emits_tell
    | apply emits_ret
    | apply emits_raise
    | apply emits_params_get
    | apply emits_params_put
    | apply emits_params_get_bool
    | apply emits_params_put_bool
    | apply emits_params_clear_all
    | apply emits_getenv
    | apply emits_setenv
    | match goal with
      | |- emits _ (if ?b then _ else _) => destruct b
      | |- emits _ (match ?x with _ => _ end) => destruct x
      end ]; done.
Qed.

Ltac startup_step_in H :=
  first
    [ rewrite bind_tell in H | rewrite bind_get in H
    | rewrite bind_get_bool in H | rewrite bind_put in H
    | rewrite bind_put_bool in H | rewrite bind_clear_all in H
    | rewrite bind_getenv in H | rewrite bind_setenv in H
    | rewrite bind_ret in H | rewrite bind_raise in H ];
  unfold log_event in H; cbn [params environ trace] in H.

(** A store that differs from [p] on version keys at most. *)
Definition version_update (p q : gmap string string) : Prop :=
  forall k, k ∉ version_keys -> q !! k = p !! k.

Lemma version_update_refl p : version_update p p.
Proof. by intros k _. Qed.

Lemma version_update_insert p q k v :
  k ∈ version_keys -> version_update p q -> version_update p (<[k := v]> q).
Proof.
  intros Hk H k' Hk'. rewrite lookup_insert_ne; [by apply H|].
  by intros ->.
Qed.

Lemma version_update_full p : version_update p (store_version host p).
Proof. intros k Hk. by apply store_version_other. Qed.

Lemma bind_make_shm {B} (f : unit -> M B) w :
  bind (make_shm host fails) f w =
  match fails l118_mkdir with
  | Some what => (Raise (CollabError what), log_event EvMkdirShm w)
  | None =>
      f tt {| params := params w; environ := environ w;
              trace := trace w ++ shm_events host |}
  end.
Proof.
  unfold make_shm, shm_events. rewrite bind_assoc, bind_collab.
  destruct (fails l118_mkdir); [done|].
  destruct (mkdir_shm host); rewrite ?bind_ret, ?bind_tell;
    unfold log_event; cbn [trace params environ];
    by rewrite <- ?app_assoc.
Qed.

Lemma dongle_id_exported e :
  Py.truthy (register host) = true ->
  (<["DONGLE_ID" := default "" (register host)]> e) !! "DONGLE_ID"
  = register host
  /\ environ_exported host e !! "DONGLE_ID" = register host.
Proof.
  intros Hreg.
  assert (Some (default "" (register host)) = register host) as Hsome.
  { destruct (register host) as [d|]; [done|]. by cbn in Hreg. }
  split; [by rewrite lookup_insert_eq|].
  unfold environ_exported. cbv zeta.
  destruct (is_dirty host); rewrite ?(lookup_insert_ne _ "CLEAN") by done;
    by rewrite lookup_insert_eq.
Qed.

Lemma environ_exported_other e k :
  k <> "DONGLE_ID" -> k <> "CLEAN" -> environ_exported host e !! k = e !! k.
Proof.
  intros Hd Hc. unfold environ_exported. cbv zeta.
  destruct (is_dirty host); by rewrite !lookup_insert_ne.
Qed.

Ltac first_is :=
  cbn [first_failure before_store before_register after_export app];
  repeat match goal with
         | H : fails _ = _ |- _ => rewrite H
         | H : error_txt_isfile _ = _ |- _ => rewrite H
         end;
  cbn [first_failure app];
  repeat match goal with
         | H : fails _ = _ |- _ => rewrite H
         end;
  reflexivity.

Ltac all_return :=
  cbn [before_store before_register after_export app];
  repeat match goal with
         | H : error_txt_isfile _ = _ |- _ => rewrite H
         end;
  cbn [app]; by repeat constructor.

Ltac version_upd :=
  repeat (apply version_update_insert;
          [apply (bool_decide_unpack _); by vm_compute|]);
  apply version_update_refl.

(** How [manager_init] ends, from the first call to the last. *)
Lemma manager_init_ends (w : World) :
  let r := Startup.manager_init host fails w in
  (exists what,
      first_failure fails before_store = Some what
      /\ r.1 = Raise (CollabError what)
      /\ params r.2 = params w /\ environ r.2 = environ w)
  \/ (returns fails before_store
      /\ ((exists text,
              environ w !! "PASSIVE" = Some text /\ int host text = None
              /\ r.1 = Raise (ValueError text)
              /\ params r.2 = store_defaults host w
              /\ environ r.2 = environ w)
          \/ (passive_readable host w
              /\ ((store_mode host w !! "Passive" = None
                   /\ r.1 = Raise (Exception "Passive must be set to continue")
                   /\ params r.2 = store_mode host w
                   /\ environ r.2 = environ w)
                  \/ (is_Some (store_mode host w !! "Passive")
                      /\ ((exists what,
                              first_failure fails
                                (before_register ++ [l134_register])
                              = Some what
                              /\ r.1 = Raise (CollabError what)
                              /\ version_update (store_mode host w)
                                   (params r.2)
                              /\ environ r.2 = environ w)
                          \/ (returns fails
                                (before_register ++ [l134_register])
                              /\ params r.2
                                 = store_version host (store_mode host w)
                              /\ ((Py.truthy (register host) = false
                                   /\ r.1
                                      = Raise
                                          (Exception
                                             ("Registration failed for device "
                                              ++ Py.format
                                                   (params r.2
                                                      !! "HardwareSerial")))
                                   /\ environ r.2 = environ w)
                                  \/ (Py.truthy (register host) = true
                                      /\ environ r.2 !! "DONGLE_ID"
                                         = register host
                                      /\ (forall k,
                                            k <> "DONGLE_ID" -> k <> "CLEAN" ->
                                            environ r.2 !! k = environ w !! k)
                                      /\ ((exists what,
                                              first_failure fails
                                                (after_export host)
                                              = Some what
                                              /\ r.1
                                                 = Raise (CollabError what))
                                          \/ (returns fails (after_export host)
                                              /\ r.1 = Ok tt
                                              /\ environ r.2
                                                 = environ_exported host
                                                     (environ w)))))))))))).
Proof.
  intros r. subst r.
  remember (Startup.manager_init host fails w) as res eqn:Em.
  unfold Startup.manager_init in Em.
  rewrite bind_collab in Em.
  destruct (fails l32_set_time) as [m|] eqn:E32.
  { left. exists m. cbn [first_failure before_store]. rewrite E32.
    by subst res. }
  rewrite bind_collab in Em.
  destruct (fails l35_subprocess_call) as [m|] eqn:E35.
  { left. exists m. cbn [first_failure before_store]. rewrite E32, E35.
    by subst res. }
  right. split; [by repeat constructor|].
  do 2 startup_step_in Em.
  assert (forall B (f : unit -> M B) p0 e0 t0,
             bind (if Params.bool_value p0 "RecordFrontLock"
                   then Params.put_bool "RecordFront" true else ret tt) f
               {| params := p0; environ := e0; trace := t0 |}
             = f tt {| params := record_front p0; environ := e0;
                       trace := t0 |}) as Hrf.
  { intros B f p0 e0 t0. unfold record_front.
    destruct (Params.bool_value p0 "RecordFrontLock");
      [by rewrite bind_put_bool|by rewrite bind_ret]. }
  rewrite Hrf in Em. clear Hrf.
  rewrite (bind_run _ _ _ _ _ (for_each_defaults _ _)) in Em.
  cbn [params environ trace] in Em.
  assert (store_defaults host w
          = with_defaults (default_params host)
              (record_front
                 (Params.cleared (clear_on_manager_start host) (params w))))
    as Hsd by reflexivity.
  rewrite <- Hsd in Em. clear Hsd.
  startup_step_in Em.
  assert (passive_readable host w
          \/ exists text, environ w !! "PASSIVE" = Some text
                          /\ int host text = None) as [Hp|(text & Ht & Hi)].
  { unfold passive_readable.
    destruct (environ w !! "PASSIVE") as [text|] eqn:Ht; [|left; by intros].
    destruct (int host text) as [n|] eqn:Hi; [|right; eauto].
    left. intros ? [= <-]. by rewrite Hi. }
  2:{ left. exists text. rewrite Ht, Hi in Em. startup_step_in Em.
      by subst res. }
  right. split; [done|].
  assert (forall B (f : unit -> M B) t0,
             bind (match environ w !! "PASSIVE" with
                   | Some text =>
                       match int host text with
                       | Some n =>
                           Params.put_bool "Passive" (Py.bool_of_int n)
                       | None => raise (ValueError text)
                       end
                   | None => ret tt
                   end) f
               {| params := store_defaults host w; environ := environ w;
                  trace := t0 |}
             = f tt {| params := store_mode host w; environ := environ w;
                       trace := t0 |}) as Hm.
  { intros B f t0. unfold store_mode.
    destruct (environ w !! "PASSIVE") as [text|] eqn:Ht;
      [|by rewrite bind_ret].
    destruct (Hp text Ht) as [n ->]. by rewrite bind_put_bool. }
  rewrite Hm in Em. clear Hm. startup_step_in Em.
  destruct (store_mode host w !! "Passive") as [mode|] eqn:Emode.
  2:{ left. startup_step_in Em. by subst res. }
  right. split; [by eexists|]. startup_step_in Em.
  rewrite bind_make_shm in Em. cbn [params environ trace] in Em.
  destruct (fails l118_mkdir) as [m|] eqn:E118.
  { left. exists m. split; [first_is|]. subst res.
    split; [done|]. split; [apply version_update_refl|done]. }
  rewrite bind_answer in Em.
  destruct (fails l125_get_version) as [m|] eqn:E125.
  { left. exists m. split; [first_is|]. subst res.
    split; [done|]. split; [apply version_update_refl|done]. }
  do 3 startup_step_in Em. rewrite bind_answer in Em.
  destruct (fails l128_get_commit) as [m|] eqn:E128.
  { left. exists m. split; [first_is|]. subst res.
    split; [done|]. split; [cbn [snd params]; version_upd|done]. }
  startup_step_in Em. rewrite bind_answer in Em.
  destruct (fails l129_get_short_branch) as [m|] eqn:E129.
  { left. exists m. split; [first_is|]. subst res.
    split; [done|]. split; [cbn [snd params]; version_upd|done]. }
  startup_step_in Em. rewrite bind_answer in Em.
  destruct (fails l130_get_origin) as [m|] eqn:E130.
  { left. exists m. split; [first_is|]. subst res.
    split; [done|]. split; [cbn [snd params]; version_upd|done]. }
  startup_step_in Em. rewrite bind_answer in Em.
  destruct (fails l131_is_tested_branch) as [m|] eqn:E131.
  { left. exists m. split; [first_is|]. subst res.
    split; [done|]. split; [cbn [snd params]; version_upd|done]. }
  startup_step_in Em.
  assert (forall p0,
             <["IsTestedBranch" := if is_tested_branch host then "1" else "0"]>
               (<["GitRemote" := get_origin host]>
                  (<["GitBranch" := get_short_branch host]>
                     (<["GitCommit" := get_commit host]>
                        (<["TrainingVersion" := training_version host]>
                           (<["TermsVersion" := terms_version host]>
                              (<["Version" := get_version host]> p0))))))
             = store_version host p0) as Hsv by reflexivity.
  rewrite Hsv in Em. clear Hsv.
  rewrite bind_collab in Em. unfold log_event in Em.
  cbn [params environ trace] in Em.
  destruct (fails l134_register) as [m|] eqn:E134.
  { left. exists m. split; [first_is|]. subst res.
    split; [done|]. split; [apply version_update_full|done]. }
  right. split; [all_return|].
  destruct (Py.truthy (register host)) eqn:Ereg.
  2:{ rewrite bind_assoc in Em. do 2 startup_step_in Em. subst res.
      split; [done|]. left. by cbn [fst snd params environ]. }
  do 2 startup_step_in Em.
  destruct (dongle_id_exported (environ w) Ereg) as [Hd1 Hd2].
  rewrite bind_answer in Em.
  destruct (fails l142_is_dirty) as [m|] eqn:E142.
  { subst res. split; [done|]. right. split; [done|].
    cbn [fst snd environ]. split; [done|].
    split; [by intros k Hk _; rewrite lookup_insert_ne|].
    left. exists m. split; [first_is|done]. }
  assert (forall (f : unit -> M unit) p0 t0,
             bind (if is_dirty host then ret tt else setenv "CLEAN" "1") f
               {| params := p0;
                  environ := <["DONGLE_ID" := default "" (register host)]>
                               (environ w);
                  trace := t0 |}
             = f tt {| params := p0;
                       environ := environ_exported host (environ w);
                       trace := t0 |}) as Hd.
  { intros f p0 t0. unfold environ_exported.
    destruct (is_dirty host); [by rewrite bind_ret|by rewrite bind_setenv]. }
  rewrite Hd in Em. clear Hd.
  assert (forall r0 t0,
             res = (r0, {| params := store_version host (store_mode host w);
                           environ := environ_exported host (environ w);
                           trace := t0 |}) ->
             params res.2 = store_version host (store_mode host w)
             /\ environ res.2 !! "DONGLE_ID" = register host
             /\ (forall k, k <> "DONGLE_ID" -> k <> "CLEAN" ->
                           environ res.2 !! k = environ w !! k)
             /\ environ res.2 = environ_exported host (environ w)) as Hend.
  { intros r0 t0 ->. cbn [snd params environ]. split; [done|].
    split; [done|]. split; [|done]. apply environ_exported_other. }
  rewrite bind_collab in Em. unfold log_event in Em.
  cbn [params environ trace] in Em.
  destruct (fails l146_sentry_init) as [m|] eqn:E146.
  { destruct (Hend _ _ Em) as (Hp1 & Hp2 & Hp3 & Hp4).
    split; [done|]. right. split; [done|]. split; [done|]. split; [done|].
    left. exists m. split; [first_is|by subst res]. }
  rewrite bind_answer in Em.
  destruct (fails l147_get_version) as [m|] eqn:E147a.
  { destruct (Hend _ _ Em) as (Hp1 & Hp2 & Hp3 & Hp4).
    split; [done|]. right. split; [done|]. split; [done|]. split; [done|].
    left. exists m. split; [first_is|by subst res]. }
  rewrite bind_answer in Em.
  destruct (fails l147_is_dirty) as [m|] eqn:E147b.
  { destruct (Hend _ _ Em) as (Hp1 & Hp2 & Hp3 & Hp4).
    split; [done|]. right. split; [done|]. split; [done|]. split; [done|].
    left. exists m. split; [first_is|by subst res]. }
  rewrite bind_answer in Em.
  destruct (fails l148_get_device_type) as [m|] eqn:E148.
  { destruct (Hend _ _ Em) as (Hp1 & Hp2 & Hp3 & Hp4).
    split; [done|]. right. split; [done|]. split; [done|]. split; [done|].
    left. exists m. split; [first_is|by subst res]. }
  rewrite bind_collab in Em. unfold log_event in Em.
  cbn [params environ trace] in Em.
  destruct (fails l147_bind_global) as [m|] eqn:E147c.
  { destruct (Hend _ _ Em) as (Hp1 & Hp2 & Hp3 & Hp4).
    split; [done|]. right. split; [done|]. split; [done|]. split; [done|].
    left. exists m. split; [first_is|by subst res]. }
  destruct (error_txt_isfile host) eqn:Efile.
  - unfold collab in Em. rewrite bind_tell in Em.
    destruct (fails l151_remove) as [m|] eqn:E151.
    + destruct (Hend _ _ Em) as (Hp1 & Hp2 & Hp3 & Hp4).
      split; [done|]. right. split; [done|]. split; [done|]. split; [done|].
      left. exists m. split; [first_is|by subst res].
    + destruct (Hend _ _ Em) as (Hp1 & Hp2 & Hp3 & Hp4).
      split; [done|]. right. split; [done|]. split; [done|]. split; [done|].
      right. split; [all_return|]. split; [by subst res|done].
  - destruct (Hend _ _ Em) as (Hp1 & Hp2 & Hp3 & Hp4).
    split; [done|]. right. split; [done|]. split; [done|]. split; [done|].
    right. split; [all_return|]. split; [by subst res|done].
Qed.

(** *** The store and the environment [manager_init] leaves *)

Lemma returns_first_failure l what :
  returns fails l -> first_failure fails l = Some what -> False.
Proof. intros H E. apply first_failure_none in H. congruence. Qed.

(** When set_time or the boot log fails, nothing was written. *)
Lemma manager_init_stopped_before_store w :
  ~ returns fails before_store ->
  (exists what, (Startup.manager_init host fails w).1
                = Raise (CollabError what))
  /\ params (Startup.manager_init host fails w).2 = params w
  /\ environ (Startup.manager_init host fails w).2 = environ w.
Proof.
  intros Hn.
  destruct (manager_init_ends w) as [(what & _ & Hr & Hp & He)|[Hret _]];
    [|done].
  split; [by exists what|done].
Qed.

(** Once the two calls have returned, a key that lines 111-131 do not
    write is as the table left it. *)
Lemma manager_init_store_after_table w k :
  returns fails before_store -> k ∉ later_keys ->
  params (Startup.manager_init host fails w).2 !! k
  = store_defaults host w !! k.
Proof.
  intros Hret Hk. unfold later_keys in Hk.
  apply not_elem_of_cons in Hk as [Hp Hv].
  destruct (manager_init_ends w)
    as [(what & Hf & _)
       |[_ [(text & _ & _ & _ & -> & _)
           |[_ [(_ & _ & -> & _)
               |[_ [(what & _ & _ & Hu & _)
                   |(_ & -> & _)]]]]]]].
  - destruct (returns_first_failure _ _ Hret Hf).
  - done.
  - by apply store_mode_other.
  - rewrite Hu by done. by apply store_mode_other.
  - rewrite store_version_other by done. by apply store_mode_other.
Qed.

(** Once the override has been read, a key that lines 125-131 do not
    write is as line 111 left it. *)
Lemma manager_init_store_after_mode w k :
  returns fails before_store -> passive_readable host w ->
  k ∉ version_keys ->
  params (Startup.manager_init host fails w).2 !! k = store_mode host w !! k.
Proof.
  intros Hret Hread Hk.
  destruct (manager_init_ends w)
    as [(what & Hf & _)
       |[_ [(text & Ht & Hi & _)
           |[_ [(_ & _ & -> & _)
               |[_ [(what & _ & _ & Hu & _)
                   |(_ & -> & _)]]]]]]].
  - destruct (returns_first_failure _ _ Hret Hf).
  - destruct (Hread text Ht) as [n Hn]. congruence.
  - done.
  - by apply Hu.
  - by apply store_version_other.
Qed.

(** The mode is known: from the override or from the store as the
    clear of line 38 leaves it. *)
Definition mode_known (w : World) : Prop :=
  is_Some (environ w !! "PASSIVE")
  \/ is_Some (Params.cleared (clear_on_manager_start host) (params w)
               !! "Passive").

Lemma store_defaults_passive w :
  store_defaults host w !! "Passive"
  = Params.cleared (clear_on_manager_start host) (params w) !! "Passive".
Proof.
  unfold store_defaults. rewrite with_defaults_other.
  - by rewrite record_front_other.
  - apply table_keys_other. apply elem_of_cons. right.
    apply elem_of_cons. by left.
Qed.

Lemma store_mode_passive w :
  passive_readable host w ->
  is_Some (store_mode host w !! "Passive") <-> mode_known w.
Proof.
  intros Hp. unfold store_mode, mode_known.
  destruct (environ w !! "PASSIVE") as [text|] eqn:He.
  - destruct (Hp text He) as [n ->]. rewrite lookup_insert_eq.
    split; [left|]; by eexists.
  - rewrite store_defaults_passive. split; [by right|].
    intros [[? H]|H]; [discriminate H|done].
Qed.

Lemma serial_is_the_persisted_one w :
  store_version host (store_mode host w) !! "HardwareSerial"
  = Params.cleared (clear_on_manager_start host) (params w)
      !! "HardwareSerial".
Proof.
  rewrite store_version_other
    by (apply (bool_decide_unpack _); by vm_compute).
  rewrite store_mode_other by done. unfold store_defaults.
  rewrite with_defaults_other.
  - by rewrite record_front_other.
  - assert (Forall (fun kv : string * string => kv.1 <> "HardwareSerial")
              (default_params host)) as H.
    { unfold default_params.
      destruct (PC host); apply (bool_decide_unpack _); by vm_compute. }
    intros Hin. apply list_elem_of_fmap in Hin as ([k' v] & Hk & Hin).
    rewrite Forall_forall in H. by apply (H _ Hin).
Qed.

(** *** [main] after start-up *)

Lemma main_ends_with_init fuel w e :
  (Startup.manager_init host fails w).1 = Raise e ->
  Startup.main host out fails fuel w = Startup.manager_init host fails w.
Proof.
  intros H. unfold Startup.main. rewrite bind_getenv.
  destruct (Startup.manager_init host fails w) as [r w0] eqn:E.
  cbn [fst] in H. subst r. by rewrite (bind_run _ _ _ _ _ E).
Qed.

(** What follows start-up leaves the environment alone. *)
Definition same_environ (w w' : World) : Prop := environ w' = environ w.

Lemma same_environ_refl w : same_environ w w.
Proof. done. Qed.

Lemma same_environ_trans w1 w2 w3 :
  same_environ w1 w2 -> same_environ w2 w3 -> same_environ w1 w3.
Proof. unfold same_environ. congruence. Qed.

Ltac environ_step :=
  first
    [ apply (preserves_bind _ same_environ_trans); [|intros ?]
    | apply (preserves_for_each _ same_environ_refl same_environ_trans);
      intros ?
    | apply (preserves_try_except_finally _ same_environ_trans)
    | apply (preserves_ret _ same_environ_refl)
    | apply (preserves_raise _ same_environ_refl)
    | match goal with
      | |- preserves _ (call _ _) =>
          let w := fresh "w" in
          intros w; unfold call; by destruct (raises _ _)
      | |- preserves _ (tell _) => by intros ?
      | |- preserves _ (Params.get_bool _) => by intros ?
      | |- preserves _ (Params.put _ _) => by intros ?
      | |- preserves _ history => by intros ?
      | |- preserves _ (if ?b then _ else _) => destruct b
      | |- preserves _ _ => by intros ?
      end ].

Lemma check_flags_environ l b : preserves same_environ (check_flags l b).
Proof.
  revert b. induction l as [|x l IH]; intros b; cbn [check_flags];
    repeat first [ apply IH | environ_step ].
Qed.

Lemma control_loop_environ ignore fuel :
  preserves same_environ (control_loop host out ignore fuel).
Proof.
  induction fuel as [|fuel IH]; cbn [control_loop]; [by intros ?|].
  unfold iteration.
  repeat first [ apply IH | apply check_flags_environ | environ_step ].
Qed.

Lemma after_init_environ fuel :
  preserves same_environ
    (start_ui host out ;; manager_prepare host out ;; tell EvSignal ;;
     supervise host out fuel ;; system_action out).
Proof.
  unfold start_ui, manager_prepare, supervise, manager_cleanup,
    system_action, manager_thread.
  repeat first [ apply control_loop_environ | environ_step ].
Qed.

Lemma prepare_environ :
  preserves same_environ (manager_prepare host out).
Proof. unfold manager_prepare. repeat environ_step. Qed.

(** [main] goes on after [manager_init] only when it returned; its
    calls come after those of start-up, and the environment stays as
    start-up left it. *)
Lemma main_after_init fuel w :
  exists rest,
    trace (Startup.main host out fails fuel w).2
    = trace (Startup.manager_init host fails w).2 ++ rest
    /\ (rest <> [] -> (Startup.manager_init host fails w).1 = Ok tt)
    /\ environ (Startup.main host out fails fuel w).2
       = environ (Startup.manager_init host fails w).2.
Proof.
  unfold Startup.main. rewrite bind_getenv. cbv zeta.
  destruct (Startup.manager_init host fails w) as [r w0] eqn:E.
  rewrite (bind_run _ _ _ _ _ E). cbn [fst snd].
  destruct r as [[]|e|];
    [|exists []; by rewrite app_nil_r..].
  destruct (environ w !! "PREPAREONLY") as [flag|].
  - rewrite bind_ret.
    assert (emits (fun _ => True)
              (manager_prepare host out ;; ret tt)) as Hm.
    { apply emits_bind; [eapply emits_any, manager_prepare_emits|].
      intros _. apply emits_ret. }
    destruct (Hm w0) as (t & Et & _). exists t. split; [done|].
    split; [done|].
    assert (preserves same_environ (manager_prepare host out ;; ret tt))
      as Hp.
    { apply (preserves_bind _ same_environ_trans); [apply prepare_environ|].
      intros _. apply (preserves_ret _ same_environ_refl). }
    apply (Hp w0).
  - assert (emits (fun _ => True)
              (start_ui host out ;; manager_prepare host out ;;
               tell EvSignal ;; supervise host out fuel ;;
               system_action out)) as Hm.
    { apply emits_bind; [eapply emits_any, start_ui_emits|].
      intros _. apply emits_bind; [eapply emits_any, manager_prepare_emits|].
      intros _. apply emits_bind; [by apply emits_tell|].
      intros _. apply emits_bind; [eapply emits_any, supervise_quiet|].
      intros _. apply system_action_emits. }
    destruct (Hm w0) as (t & Et & _). exists t. split; [done|].
    split; [done|]. apply (after_init_environ fuel w0).
Qed.

(** ** The claims about the mode and the registration *)

(** C5 (as amended).  Without PASSIVE in the environment and without a
    Passive value in the store, [manager_init] raises, whatever its
    collaborators do, with only start-up calls made, and [main] ends
    there; the exception is the one of line 114 when set_time and the
    boot log have returned.  When they have: with PASSIVE set to a text
    that [int()] accepts, the truth value of the integer is what the
    store holds as Passive afterwards, whatever it held and whatever
    happens later in [manager_init]; with PASSIVE set to a text that
    [int()] rejects, [manager_init] raises the ValueError and Passive is
    as the clear of line 38 left it.  When one of the two calls fails,
    the store is not touched at all. *)
Theorem passive_mode_resolution (fuel : nat) (w : World) :
  let r := Startup.manager_init host fails w in
  (environ w !! "PASSIVE" = None -> params w !! "Passive" = None ->
   (exists e, r.1 = Raise e)
   /\ (returns fails before_store ->
       r.1 = Raise (Exception "Passive must be set to continue"))
   /\ Startup.main host out fails fuel w = r
   /\ exists t, trace r.2 = trace w ++ t
                /\ Forall (fun ev => is_startup ev = true) t)
  /\ (forall text n,
        returns fails before_store ->
        environ w !! "PASSIVE" = Some text -> int host text = Some n ->
        params r.2 !! "Passive"
        = Some (if Py.bool_of_int n then "1" else "0"))
  /\ (forall text,
        returns fails before_store ->
        environ w !! "PASSIVE" = Some text -> int host text = None ->
        r.1 = Raise (ValueError text)
        /\ params r.2 !! "Passive"
           = Params.cleared (clear_on_manager_start host) (params w)
               !! "Passive")
  /\ (~ returns fails before_store ->
      (exists what, r.1 = Raise (CollabError what))
      /\ params r.2 = params w).
Proof.
  intros r. subst r.
  assert ("Passive" ∉ version_keys) as Hpv
    by (apply (bool_decide_unpack _); by vm_compute).
  split; [|split; [|split]].
  - intros He Hp.
    assert (passive_readable host w) as Hread
      by (intros text Ht; congruence).
    assert (store_mode host w !! "Passive" = None) as Hm.
    { unfold store_mode. rewrite He, store_defaults_passive, cleared_lookup, Hp.
      by destruct (clear_on_manager_start host "Passive"). }
    assert ((exists e, (Startup.manager_init host fails w).1 = Raise e)
            /\ (returns fails before_store ->
                (Startup.manager_init host fails w).1
                = Raise (Exception "Passive must be set to continue")))
      as [[e Hr] Hret].
    { destruct (manager_init_ends w)
        as [(what & Hf & Hr & _)
           |[_ [(text & Ht & _)
               |[_ [(_ & Hr & _)
                   |[Hs _]]]]]].
      - split; [by eexists|]. intros Hret.
        destruct (returns_first_failure _ _ Hret Hf).
      - congruence.
      - split; [by eexists|done].
      - rewrite Hm in Hs. by destruct Hs. }
    split; [by exists e|]. split; [done|].
    split; [by apply main_ends_with_init with (e := e)|].
    apply manager_init_emits_startup.
  - intros text n Hret He Hi.
    assert (passive_readable host w) as Hread.
    { intros text' Ht'. assert (text' = text) as -> by congruence.
      by rewrite Hi. }
    rewrite manager_init_store_after_mode by done.
    unfold store_mode. by rewrite He, Hi, lookup_insert_eq.
  - intros text Hret He Hi.
    destruct (manager_init_ends w)
      as [(what & Hf & _)
         |[_ [(text' & Ht & _ & Hr & Hp & _)
             |[Hread _]]]].
    + destruct (returns_first_failure _ _ Hret Hf).
    + assert (text' = text) as -> by congruence.
      split; [done|]. by rewrite Hp, store_defaults_passive.
    + destruct (Hread _ He) as [n Hn]. congruence.
  - intros Hn.
    destruct (manager_init_stopped_before_store w Hn) as (Hr & Hp & _).
    by split.
Qed.

(** C6.  [manager_init] raises the exception whose message names the
    hardware serial of the store exactly when it gets as far as
    registration (the calls before it return, PASSIVE if present is
    accepted by [int()], the mode is known), [register] returns, and
    what it returns is no identifier.  Nothing was exported then, only
    start-up calls were made, and [main] ends there.  When [register]
    returns an identifier it is exported as DONGLE_ID, whatever happens
    in the rest of [manager_init], which returns exactly when the calls
    after the export do.  All that [main] calls besides start-up comes
    after it, only when [manager_init] has returned, and the
    environment stays as [manager_init] left it. *)
Theorem registration_failure_is_fatal (fuel : nat) (w : World) :
  let r := Startup.manager_init host fails w in
  let serial :=
    Params.cleared (clear_on_manager_start host) (params w)
      !! "HardwareSerial" in
  let failure :=
    Exception ("Registration failed for device " ++ Py.format serial) in
  let reached :=
    returns fails before_store /\ passive_readable host w /\ mode_known w
    /\ returns fails before_register /\ fails l134_register = None in
  (r.1 = Raise failure <-> reached /\ Py.truthy (register host) = false)
  /\ (r.1 = Raise failure ->
      environ r.2 = environ w
      /\ params r.2 !! "HardwareSerial" = serial
      /\ Startup.main host out fails fuel w = r)
  /\ (reached -> Py.truthy (register host) = true ->
      environ r.2 !! "DONGLE_ID" = register host
      /\ (r.1 = Ok tt <-> returns fails (after_export host)))
  /\ (exists t rest,
        trace r.2 = trace w ++ t
        /\ Forall (fun ev => is_startup ev = true) t
        /\ trace (Startup.main host out fails fuel w).2 = trace r.2 ++ rest
        /\ (rest <> [] ->
            r.1 = Ok tt /\ environ r.2 !! "DONGLE_ID" = register host)
        /\ environ (Startup.main host out fails fuel w).2 = environ r.2).
Proof.
  intros r serial failure reached. subst r serial failure reached.
  assert (forall x,
             @Raise unit (Exception "Passive must be set to continue")
             <> Raise (Exception ("Registration failed for device " ++ x)))
    as Hmsg by (intros x; cbn; discriminate).
  assert (forall l : list site,
             returns fails (l ++ [l134_register])
             <-> returns fails l /\ fails l134_register = None) as Hsplit.
  { intros l. unfold returns. rewrite Forall_app, Forall_singleton. done. }
  destruct (manager_init_ends w)
    as [(what & Hf & Hr & _ & He)
       |[Hret [(text & Ht & Hi & Hr & _ & He)
           |[Hread [(Hm & Hr & _ & He)
               |[Hmode [(what & Hf & Hr & _ & He)
                   |(Hret2 & Hp
                     & [(Hreg & Hr & He)
                       |(Hreg & Hd & Hother
                         & [(what & Hf & Hr)|(Hret3 & Hr & He)])])]]]]]]].
  - (* set_time or the boot log failed *)
    rewrite Hr. split; [|split; [done|split]].
    + split; [done|]. intros [(Hret & _) _].
      destruct (returns_first_failure _ _ Hret Hf).
    + intros (Hret & _). destruct (returns_first_failure _ _ Hret Hf).
    + destruct (manager_init_emits_startup w) as (t & Et & Ft).
      destruct (main_after_init fuel w) as (rest & Em & Hrest & Eenv).
      exists t, rest. rewrite Hr in Hrest.
      split; [done|]. split; [done|]. split; [done|]. split; [|done].
      intros Hne. by specialize (Hrest Hne).
  - (* the override is no integer *)
    rewrite Hr. split; [|split; [done|split]].
    + split; [done|]. intros [(_ & Hread & _) _].
      destruct (Hread text Ht) as [n Hn]. congruence.
    + intros (_ & Hread & _). destruct (Hread text Ht) as [n Hn]. congruence.
    + destruct (manager_init_emits_startup w) as (t & Et & Ft).
      destruct (main_after_init fuel w) as (rest & Em & Hrest & Eenv).
      exists t, rest. rewrite Hr in Hrest.
      split; [done|]. split; [done|]. split; [done|]. split; [|done].
      intros Hne. by specialize (Hrest Hne).
  - (* no mode *)
    rewrite Hr. split; [|split; [|split]].
    + split; [intros H; by destruct (Hmsg _ H)|].
      intros [(_ & _ & Hk & _) _]. apply (store_mode_passive w Hread) in Hk.
      rewrite Hm in Hk. by destruct Hk.
    + intros H. by destruct (Hmsg _ H).
    + intros (_ & _ & Hk & _). apply (store_mode_passive w Hread) in Hk.
      rewrite Hm in Hk. by destruct Hk.
    + destruct (manager_init_emits_startup w) as (t & Et & Ft).
      destruct (main_after_init fuel w) as (rest & Em & Hrest & Eenv).
      exists t, rest. rewrite Hr in Hrest.
      split; [done|]. split; [done|]. split; [done|]. split; [|done].
      intros Hne. by specialize (Hrest Hne).
  - (* a call up to register failed *)
    rewrite Hr. split; [|split; [done|split]].
    + split; [done|]. intros [(_ & _ & _ & H1 & H2) _].
      destruct (returns_first_failure (before_register ++ [l134_register])
                  what); [by apply Hsplit|done].
    + intros (_ & _ & _ & H1 & H2).
      destruct (returns_first_failure (before_register ++ [l134_register])
                  what); [by apply Hsplit|done].
    + destruct (manager_init_emits_startup w) as (t & Et & Ft).
      destruct (main_after_init fuel w) as (rest & Em & Hrest & Eenv).
      exists t, rest. rewrite Hr in Hrest.
      split; [done|]. split; [done|]. split; [done|]. split; [|done].
      intros Hne. by specialize (Hrest Hne).
  - (* register gave no identifier *)
    apply Hsplit in Hret2 as [Hret2 H134].
    apply (store_mode_passive w Hread) in Hmode.
    rewrite Hp, serial_is_the_persisted_one in Hr.
    rewrite Hr. split; [|split; [|split]].
    + split; [intros _; by repeat split|done].
    + intros _. split; [done|].
      split; [by rewrite Hp, serial_is_the_persisted_one|].
      by apply main_ends_with_init
        with (e := Exception
                     ("Registration failed for device "
                      ++ Py.format
                           (Params.cleared (clear_on_manager_start host)
                              (params w) !! "HardwareSerial"))).
    + intros _ Ht. congruence.
    + destruct (manager_init_emits_startup w) as (t & Et & Ft).
      destruct (main_after_init fuel w) as (rest & Em & Hrest & Eenv).
      exists t, rest. rewrite Hr in Hrest.
      split; [done|]. split; [done|]. split; [done|]. split; [|done].
      intros Hne. by specialize (Hrest Hne).
  - (* a call after the export failed *)
    rewrite Hr. split; [|split; [done|split]].
    + split; [done|]. intros [_ Hfalse]. congruence.
    + intros _ _. split; [done|]. split; [done|]. intros Hret3.
      destruct (returns_first_failure _ _ Hret3 Hf).
    + destruct (manager_init_emits_startup w) as (t & Et & Ft).
      destruct (main_after_init fuel w) as (rest & Em & Hrest & Eenv).
      exists t, rest. rewrite Hr in Hrest.
      split; [done|]. split; [done|]. split; [done|]. split; [|done].
      intros Hne. by specialize (Hrest Hne).
  - (* the return *)
    rewrite Hr. split; [|split; [done|split]].
    + split; [done|]. intros [_ Hfalse]. congruence.
    + intros _ _. by split.
    + destruct (manager_init_emits_startup w) as (t & Et & Ft).
      destruct (main_after_init fuel w) as (rest & Em & Hrest & Eenv).
      exists t, rest. by repeat split.
Qed.

(** ** Further properties of start-up *)

(** X2.  [manager_init] changes two variables of the environment at
    most, DONGLE_ID and CLEAN.  When it returns, DONGLE_ID is the
    identifier [register] gave, and CLEAN is 1 when the tree is not
    dirty and as it was when it is.  When it raises, the environment is
    as it was on entry, unless the exception is that of a call made
    after the export of line 140: then DONGLE_ID is exported
    already. *)
Theorem environment_after_init (w : World) :
  let r := Startup.manager_init host fails w in
  (forall k, k <> "DONGLE_ID" -> k <> "CLEAN" ->
             environ r.2 !! k = environ w !! k)
  /\ (r.1 = Ok tt ->
      Py.truthy (register host) = true
      /\ environ r.2 !! "DONGLE_ID" = register host
      /\ environ r.2 !! "CLEAN"
         = (if is_dirty host then environ w !! "CLEAN" else Some "1"))
  /\ (forall e,
        r.1 = Raise e ->
        environ r.2 = environ w
        \/ (Py.truthy (register host) = true
            /\ environ r.2 !! "DONGLE_ID" = register host
            /\ exists what,
                 first_failure fails (after_export host) = Some what
                 /\ e = CollabError what))
  /\ (returns fails (after_export host) -> r.1 <> Ok tt ->
      environ r.2 = environ w).
Proof.
  intros r. subst r.
  destruct (manager_init_ends w)
    as [(what & Hf & Hr & _ & He)
       |[Hret [(text & Ht & Hi & Hr & _ & He)
           |[Hread [(Hm & Hr & _ & He)
               |[Hmode [(what & Hf & Hr & _ & He)
                   |(Hret2 & Hp
                     & [(Hreg & Hr & He)
                       |(Hreg & Hd & Hother
                         & [(what & Hf & Hr)|(Hret3 & Hr & He)])])]]]]]]];
    rewrite Hr; try rewrite He;
    try (split; [done|]; split; [done|]; split; [by left|done]).
  - split; [done|]. split; [done|]. split.
    + intros e [= <-]. right. split; [done|]. split; [done|]. by exists what.
    + intros Hret3. destruct (returns_first_failure _ _ Hret3 Hf).
  - split; [apply environ_exported_other|]. split; [|split; [done|done]].
    intros _. split; [done|].
    split; [by apply dongle_id_exported|].
    unfold environ_exported. cbv zeta.
    destruct (is_dirty host);
      [by rewrite lookup_insert_ne|by rewrite lookup_insert_eq].
Qed.

(** X3.  [manager_init] fails in four ways only: the ValueError of a
    PASSIVE that [int()] rejects, the exception of the missing mode,
    the exception of the failed registration with the serial of the
    store, each of them an [Exception], and the exception of a
    collaborator.  In every case [main] ends there, and only start-up
    calls were made. *)
Theorem init_failures_end_main (fuel : nat) (w : World) (e : exn) :
  (Startup.manager_init host fails w).1 = Raise e ->
  ((((exists text, environ w !! "PASSIVE" = Some text
                   /\ int host text = None /\ e = ValueError text)
     \/ e = Exception "Passive must be set to continue"
     \/ (Py.truthy (register host) = false
         /\ e = Exception
                  ("Registration failed for device "
                   ++ Py.format
                        (params (Startup.manager_init host fails w).2
                           !! "HardwareSerial"))))
    /\ is_Exception e = true)
   \/ (exists s what, fails s = Some what /\ e = CollabError what))
  /\ Startup.main host out fails fuel w = Startup.manager_init host fails w
  /\ exists t, trace (Startup.manager_init host fails w).2 = trace w ++ t
               /\ Forall (fun ev => is_startup ev = true) t.
Proof.
  intros Hr.
  pose proof (main_ends_with_init fuel w e Hr) as Hm.
  split; [|split; [done|apply manager_init_emits_startup]].
  clear Hm.
  destruct (manager_init_ends w)
    as [(what & Hf & Hr' & _)
       |[_ [(text & Ht & Hi & Hr' & _)
           |[_ [(_ & Hr' & _)
               |[_ [(what & Hf & Hr' & _)
                   |(_ & _
                     & [(Hreg & Hr' & _)
                       |(_ & _ & _
                         & [(what & Hf & Hr')|(_ & Hr' & _)])])]]]]]]];
    rewrite Hr' in Hr; try discriminate Hr; injection Hr as <-;
    try (left; split; [solve [eauto 6]|done]);
    right; apply first_failure_some in Hf as (s & _ & Hs); eauto.
Qed.

(** X4.  A key tagged clear-on-start that [manager_init] does not write
    itself is unset afterwards, whatever the outcome, once set_time and
    the boot log have returned; when one of them fails, the store is as
    it was on entry. *)
Theorem tagged_keys_unset_after_init (w : World) (k : string) :
  clear_on_manager_start host k = true ->
  k ∉ (default_params host).*1 ->
  k ∉ "RecordFront" :: later_keys ->
  (returns fails before_store ->
   params (Startup.manager_init host fails w).2 !! k = None)
  /\ (~ returns fails before_store ->
      params (Startup.manager_init host fails w).2 = params w).
Proof.
  intros Ht Hd Hk. apply not_elem_of_cons in Hk as [Hrf Hl]. split.
  - intros Hret. rewrite manager_init_store_after_table by done.
    unfold store_defaults.
    rewrite with_defaults_other by done. rewrite record_front_other by done.
    by rewrite cleared_lookup, Ht.
  - intros Hn. by destruct (manager_init_stopped_before_store w Hn) as (_ & ? & _).
Qed.

(** X5.  [manager_init] returns exactly when every call it makes to a
    collaborator returns (the removal of error.txt only when the file
    is there), PASSIVE, if present, is accepted by [int()], the mode is
    known, and [register] gives an identifier. *)
Theorem manager_init_returns_iff (w : World) :
  (Startup.manager_init host fails w).1 = Ok tt
  <-> returns fails before_store
      /\ passive_readable host w
      /\ mode_known w
      /\ returns fails before_register
      /\ fails l134_register = None
      /\ Py.truthy (register host) = true
      /\ returns fails (after_export host).
Proof.
  assert (forall l : list site,
             returns fails (l ++ [l134_register])
             <-> returns fails l /\ fails l134_register = None) as Hsplit.
  { intros l. unfold returns. rewrite Forall_app, Forall_singleton. done. }
  destruct (manager_init_ends w)
    as [(what & Hf & Hr & _)
       |[Hret [(text & Ht & Hi & Hr & _)
           |[Hread [(Hm & Hr & _)
               |[Hmode [(what & Hf & Hr & _)
                   |(Hret2 & Hp
                     & [(Hreg & Hr & _)
                       |(Hreg & _ & _
                         & [(what & Hf & Hr)|(Hret3 & Hr & _)])])]]]]]]];
    rewrite Hr.
  - split; [done|]. intros (H & _).
    destruct (returns_first_failure _ _ H Hf).
  - split; [done|]. intros (_ & H & _).
    destruct (H text Ht) as [n Hn]. congruence.
  - split; [done|]. intros (_ & _ & H & _).
    apply (store_mode_passive w Hread) in H. rewrite Hm in H. by destruct H.
  - split; [done|]. intros (_ & _ & _ & H1 & H2 & _).
    destruct (returns_first_failure (before_register ++ [l134_register]) what);
      [by apply Hsplit|done].
  - split; [done|]. intros (_ & _ & _ & _ & _ & H & _). congruence.
  - split; [done|]. intros (_ & _ & _ & _ & _ & _ & H).
    destruct (returns_first_failure _ _ H Hf).
  - split; [|done]. intros _. apply Hsplit in Hret2 as [H1 H2].
    apply (store_mode_passive w Hread) in Hmode. done.
Qed.

End StartupFailures.

(** When no call fails, this is start-up as [manager_init] has it. *)
Lemma calm_manager_init host w :
  Startup.manager_init host Startup.calm w = manager_init host w.
Proof. reflexivity. Qed.

Lemma calm_main host out fuel w :
  Startup.main host out Startup.calm fuel w = main host out fuel w.
Proof. reflexivity. Qed.

(** * More runs on the device *)

(** The device when registration gives no identifier. *)
Definition offline_tici : Host :=
  {| int := int tici;
     PC := PC tici;
     utcnow_isoformat := utcnow_isoformat tici;
     clear_on_manager_start := clear_on_manager_start tici;
     mkdir_shm := mkdir_shm tici;
     get_version := get_version tici;
     terms_version := terms_version tici;
     training_version := training_version tici;
     get_commit := get_commit tici;
     get_short_branch := get_short_branch tici;
     get_origin := get_origin tici;
     is_tested_branch := is_tested_branch tici;
     is_dirty := is_dirty tici;
     register := None;
     get_device_type := get_device_type tici;
     error_txt_isfile := error_txt_isfile tici;
     UNREGISTERED_DONGLE_ID := UNREGISTERED_DONGLE_ID tici;
     managed_processes := managed_processes tici |}.

(** The orchestration fails once the device has started. *)
Definition failing_orchestration_outside : Outside :=
  {| raises := fun t =>
       match last t with
       | Some (EvEnsureRunning true _) => Some (CollabError "ensure_running")
       | _ => None
       end;
     writes := fun _ p => p;
     started := fun _ => true;
     proc := fun _ _ => None |}.

(** A store with a stale reboot request of the previous run. *)
Definition stale_store : gmap string string :=
  {[ "Passive" := "0"; "DoReboot" := "1" ]}.

(** X1, on a run. *)
Lemma version_written_on_the_device :
  let w := boot used_store ∅ in
  (manager_init tici w).1 = Ok tt
  /\ params (manager_init tici w).2 !! "Version" = Some "0.9.1"
  /\ params (manager_init tici w).2 !! "GitBranch" = Some "dev-c3".
Proof.
  intros w.
  assert ((manager_init tici w).1 = Ok tt) as H by (vm_compute; reflexivity).
  split; [exact H|].
  destruct (version_identity_overwritten tici w H)
    as (Hv & _ & _ & _ & Hb & _).
  split; [exact Hv|exact Hb].
Defined.

(** X6, on a run. *)
Lemma prepare_only_on_the_device :
  let w := boot used_store {[ "PREPAREONLY" := "1" ]} in
  is_Some (environ w !! "PREPAREONLY")
  /\ (main tici quiet_outside 3 w).1 <> Pending.
Proof.
  intros w.
  assert (is_Some (environ w !! "PREPAREONLY")) as H
    by (exists "1"; vm_compute; reflexivity).
  split; [exact H|].
  destruct (prepare_only_run tici quiet_outside 3 w H) as (_ & Hp & _).
  exact Hp.
Defined.

(** X7, on a run. *)
Lemma ui_is_started_first_on_the_device :
  let w := boot used_store ∅ in
  (manager_init tici w).1 = Ok tt
  /\ exists t,
       trace (main tici quiet_outside 3 w).2
       = trace (manager_init tici w).2 ++ EvStart "ui" :: t.
Proof.
  intros w.
  assert (environ w !! "PREPAREONLY" = None) as Hf
    by (vm_compute; reflexivity).
  assert ((manager_init tici w).1 = Ok tt) as H by (vm_compute; reflexivity).
  split; [exact H|].
  destruct (ui_started_before_preparation tici quiet_outside 3 w Hf H)
    as (_ & Hui).
  apply Hui. apply (bool_decide_unpack _). vm_compute. exact I.
Defined.

(** X8, on a run: the flags the operator set are still set at the
    end. *)
Lemma flags_survive_the_run :
  let w := boot {[ "DoShutdown" := "1" ]} ∅ in
  let w' := ((supervise tici quiet_outside 3 ;; system_action quiet_outside)
               w).2 in
  params w' !! "DoShutdown" = Some "1".
Proof.
  intros w w'.
  destruct (run_writes_only_the_exit_reason tici quiet_outside
              (fun _ _ => eq_refl) 3 w) as [Hp _].
  subst w'. rewrite Hp by done. vm_compute. reflexivity.
Defined.

(** X9, on a run. *)
Lemma quiet_loop_keeps_running :
  (control_loop tici quiet_outside [] 7 (boot ∅ ∅)).1 = Pending.
Proof.
  apply (loop_runs_while_no_flag_is_set tici quiet_outside).
  - intros t. reflexivity.
  - intros t p H. exact H.
  - vm_compute. reflexivity.
Defined.

(** X10, on a run. *)
Lemma two_flags_end_the_first_turn :
  (control_loop tici two_flags_outside [] 3 (boot ∅ ∅)).1 = Ok tt.
Proof.
  apply (request_ends_the_loop_in_that_turn tici two_flags_outside [] 2).
  - intros t. reflexivity.
  - intros H. vm_compute in H. discriminate H.
Defined.

(** X11, on a run: uninstall and reboot are both asked for; uninstall
    is called and the reason left is the reboot. *)
Lemma uninstall_is_called_for_the_reason_reboot :
  let w := boot {[ "DoUninstall" := "1"; "DoReboot" := "1" ]} ∅ in
  let w1 := (check_flags shutdown_params false w).2 in
  trace (system_action quiet_outside w1).2
  = trace w1 ++ [EvLog LWarning (action_name Uninstall); EvHardware Uninstall]
  /\ params w1 !! "LastManagerExitReason" <> Some (flag_of Uninstall).
Proof.
  intros w w1.
  assert (trace (system_action quiet_outside w1).2
          = trace w1 ++ [EvLog LWarning (action_name Uninstall);
                         EvHardware Uninstall]) as H
    by (vm_compute; reflexivity).
  split; [exact H|].
  intros Hreason.
  apply (exit_reason_names_the_action quiet_outside w Uninstall H) in Hreason.
  apply Hreason. split; [vm_compute; reflexivity|].
  right. vm_compute. reflexivity.
Defined.

Lemma last_of_snoc_event (t : list event) ev : last (t ++ [ev]) = Some ev.
Proof. apply last_snoc. Qed.

(** X12, on a run: the orchestration raises in the first turn, the
    exception is reported, and the loop under its handlers returns. *)
Lemma failed_orchestration_is_swallowed :
  let w := boot used_store ∅ in
  (manager_thread tici failing_orchestration_outside 3 w).1
  = Raise (CollabError "ensure_running")
  /\ exists w',
       supervise tici failing_orchestration_outside 3 w = (Ok tt, w').
Proof.
  intros w.
  assert ((manager_thread tici failing_orchestration_outside 3 w).1
          = Raise (CollabError "ensure_running")) as H
    by (vm_compute; reflexivity).
  split; [exact H|].
  destruct (loop_exception_is_reported_and_swallowed tici
              failing_orchestration_outside 3 w _ H eq_refl)
    as (w' & Hs & _).
  - intros t ev [-> | ->]; cbn; by rewrite last_of_snoc_event.
  - intros t ev Hev. cbn. rewrite last_of_snoc_event. by destruct ev.
  - by exists w'.
Defined.

(** X13, on a run: SIGTERM in the second update. *)
Lemma sigterm_skips_the_action :
  let w := boot used_store ∅ in
  (manager_thread tici sigterm_outside 3 w).1 = Raise (SystemExit 1)
  /\ exists w',
       (supervise tici sigterm_outside 3 ;; system_action sigterm_outside) w
       = (Raise (SystemExit 1), w').
Proof.
  intros w.
  assert ((manager_thread tici sigterm_outside 3 w).1 = Raise (SystemExit 1))
    as H by (vm_compute; reflexivity).
  split; [exact H|].
  destruct (loop_exit_by_signal_skips_the_action tici sigterm_outside 3 w _
              H eq_refl) as (w' & Hs & _).
  - intros t ev Hev. cbn. rewrite last_of_snoc_event. by destruct ev.
  - by exists w'.
Defined.

(** X16, on a run: the offline device shows the failure. *)
Lemma offline_device_shows_the_failure :
  let w := boot used_store ∅ in
  let e := Exception "Registration failed for device None" in
  (manager_init offline_tici w).1 = Raise e
  /\ (main_block offline_tici quiet_outside (fun _ => "Traceback") true 3 w).1.1
     = Raise e.
Proof.
  intros w e.
  assert ((manager_init offline_tici w).1 = Raise e) as H
    by (vm_compute; reflexivity).
  split; [exact H|].
  destruct (startup_failure_is_shown_and_raised_again offline_tici
              quiet_outside (fun _ => "Traceback") true 3 w e H) as (Hr & _).
  - intros e' He'. discriminate He'.
  - exact Hr.
Defined.

(** ** Start-up with a collaborator that fails *)

(** The crash reporter cannot be initialised. *)
Definition sentry_down : Startup.site -> option string :=
  fun s =>
    match s with
    | Startup.l146_sentry_init => Some "sentry"
    | _ => None
    end.

(** C5, the claim as stated fails: PASSIVE is present in the
    environment, no collaborator fails, [manager_init] raises, and the
    store keeps the earlier Passive value instead of the override. *)
Lemma passive_override_not_stored :
  let w := boot {[ "Passive" := "0" ]} {[ "PASSIVE" := "true" ]} in
  let r := Startup.manager_init tici Startup.calm w in
  environ w !! "PASSIVE" = Some "true"
  /\ r.1 = Raise (ValueError "true")
  /\ params r.2 !! "Passive" = Some "0".
Proof. by vm_compute. Qed.

(** C5 (as amended), on a run: the override 1 replaces the stored 0,
    though start-up fails later, at the crash reporter. *)
Lemma passive_override_is_stored :
  let w := boot {[ "Passive" := "0" ]} {[ "PASSIVE" := "1" ]} in
  let r := Startup.manager_init tici sentry_down w in
  r.1 = Raise (CollabError "sentry")
  /\ params r.2 !! "Passive" = Some "1".
Proof.
  intros w r. split; [by vm_compute|].
  destruct (passive_mode_resolution tici quiet_outside sentry_down 0 w)
    as (_ & Hset & _).
  apply (Hset "1" 1%Z).
  - by repeat constructor.
  - by vm_compute.
  - by vm_compute.
Defined.

(** C6, on two runs: the device that cannot register fails with the
    serial in the message (the store has none) and exports nothing; the
    device that registers has exported its identifier when the crash
    reporter fails. *)
Lemma registration_on_the_device :
  let w := boot used_store ∅ in
  (Startup.manager_init offline_tici Startup.calm w).1
  = Raise (Exception "Registration failed for device None")
  /\ environ (Startup.manager_init offline_tici Startup.calm w).2 = environ w
  /\ (Startup.manager_init tici sentry_down w).1
     = Raise (CollabError "sentry")
  /\ environ (Startup.manager_init tici sentry_down w).2 !! "DONGLE_ID"
     = Some "a0b1c2d3e4f5a6b7".
Proof.
  intros w.
  assert (forall host, int host = int tici ->
            clear_on_manager_start host = clear_on_manager_start tici ->
            passive_readable host w /\ mode_known host w) as Hin.
  { intros host Hi Hc. split.
    - intros text Ht. vm_compute in Ht. discriminate Ht.
    - right. unfold mode_known. rewrite Hc. exists "0". by vm_compute. }
  destruct (registration_failure_is_fatal offline_tici quiet_outside
              Startup.calm 0 w) as (Hiff & Hfail & _).
  destruct (registration_failure_is_fatal tici quiet_outside sentry_down 0 w)
    as (_ & _ & Hok & _).
  assert ((Startup.manager_init offline_tici Startup.calm w).1
          = Raise (Exception "Registration failed for device None")) as Hr.
  { apply Hiff.
    destruct (Hin offline_tici eq_refl eq_refl) as [Hread Hmode].
    split; [|reflexivity].
    split; [by repeat constructor|]. split; [exact Hread|].
    split; [exact Hmode|]. split; [by repeat constructor|reflexivity]. }
  split; [exact Hr|].
  split; [exact (proj1 (Hfail Hr))|].
  split; [by vm_compute|].
  destruct (Hin tici eq_refl eq_refl) as [Hread Hmode].
  apply Hok; [|reflexivity].
  split; [by repeat constructor|]. split; [exact Hread|].
  split; [exact Hmode|]. split; [by repeat constructor|reflexivity].
Defined.

(** X3, on a run: no identifier, no loop. *)
Lemma offline_device_fails_at_registration :
  let w := boot used_store ∅ in
  let e := Exception "Registration failed for device None" in
  (Startup.manager_init offline_tici Startup.calm w).1 = Raise e
  /\ is_Exception e = true
  /\ Startup.main offline_tici quiet_outside Startup.calm 3 w
     = Startup.manager_init offline_tici Startup.calm w.
Proof.
  intros w e.
  assert ((Startup.manager_init offline_tici Startup.calm w).1 = Raise e)
    as H by (vm_compute; reflexivity).
  split; [exact H|].
  destruct (init_failures_end_main offline_tici quiet_outside Startup.calm
              3 w e H) as (_ & Hm & _).
  split; [reflexivity|exact Hm].
Defined.

(** X4, on a run: the reboot request of the previous run is gone,
    though start-up fails at the crash reporter. *)
Lemma stale_reboot_request_is_cleared :
  let w := boot stale_store ∅ in
  params w !! "DoReboot" = Some "1"
  /\ params (Startup.manager_init tici sentry_down w).2 !! "DoReboot" = None.
Proof.
  intros w. split; [vm_compute; reflexivity|].
  destruct (tagged_keys_unset_after_init tici sentry_down w "DoReboot")
    as [Hunset _].
  - vm_compute. reflexivity.
  - apply (bool_decide_unpack _). vm_compute. exact I.
  - apply (bool_decide_unpack _). vm_compute. exact I.
  - apply Hunset. by repeat constructor.
Defined.
